(** * Aptoide metadata service: a shallow embedding of [app/main.py]

    The service fetches a search payload from the Aptoide API, takes the
    first result and normalises a handful of fields.  This development
    embeds the four helpers ([fetch_from_aptoide], [format_size],
    [format_downloads], [parse_certificate]) and the route handler
    ([get_aptoide_app]) as Rocq functions over a model of the Python
    values that [response.json()] produces, and proves the properties
    the specification states about them.

    Conventions of the model
    - a Python exception is a value of [exn]; a computation that may
      raise has type [result A];
    - a JSON document is a [value]; objects are finite maps from strings
      to values ([gmap string value]), numbers are Python ints (a JSON
      number with a fraction or an exponent is outside the model);
    - a character is a code point below 256;
    - a Python float is a finite IEEE 754 binary64 number, kept as a sign
      and a magnitude counted in units of 2^-1074, so that every
      operation of the source on floats is exact integer arithmetic
      followed by one rounding to 53 significant bits. *)

From stdpp Require Import gmap strings list fin_maps pretty.
From Stdlib Require Import ZArith Lia Ascii.

#[local] Open Scope Z_scope.
#[local] Set Warnings "-register-all,-clear-no-such-hyp".

(** ** Exceptions and the error monad *)

Inductive exn :=
| HTTPException (status_code : Z) (detail : string)
| AttributeError
| TypeError
| KeyError
| IndexError
| ValueError
| OverflowError
| ZeroDivisionError
| JSONDecodeError
| ValidationError.

Inductive result (A : Type) :=
| Ok (a : A)
| Raise (e : exn).
Arguments Ok {A} a.
Arguments Raise {A} e.

#[global] Instance result_ret : MRet result := λ A a, Ok a.
#[global] Instance result_bind : MBind result := λ A B f m,
  match m with
  | Ok a => f a
  | Raise e => Raise e
  end.
#[global] Instance result_fmap : FMap result := λ A B f m,
  match m with
  | Ok a => Ok (f a)
  | Raise e => Raise e
  end.

(** ** Python values *)

Inductive value :=
| VNone
| VBool (b : bool)
| VInt (z : Z)
| VStr (s : string)
| VList (l : list value)
| VDict (d : gmap string value).

(** [bool(v)], the truth value tested by [not v]. *)
Definition truthy (v : value) : bool :=
  match v with
  | VNone => false
  | VBool b => b
  | VInt z => negb (z =? 0)
  | VStr s => negb (String.eqb s "")
  | VList l => match l with [] => false | _ :: _ => true end
  | VDict d => negb (Nat.eqb (size d) 0)
  end.

(** [Optional[str]] handed on as a Python object. *)
Definition of_option_str (o : option string) : value :=
  match o with
  | Some s => VStr s
  | None => VNone
  end.

(** [v.get(key, default)]: only a dict has the method. *)
Definition py_get (v : value) (key : string) (dflt : value) : result value :=
  match v with
  | VDict d => Ok (default dflt (d !! key))
  | _ => Raise AttributeError
  end.

(** [container[key]] for a str [key]. *)
Definition py_getitem (container : value) (key : string) : result value :=
  match container with
  | VDict d =>
      match d !! key with
      | Some v => Ok v
      | None => Raise KeyError
      end
  | _ => Raise TypeError
  end.

(** [container[0]]: the keys of a decoded JSON object are strs, so the
    int 0 is never one of them. *)
Definition py_getitem0 (container : value) : result value :=
  match container with
  | VList l =>
      match l with
      | v :: _ => Ok v
      | [] => Raise IndexError
      end
  | VStr s =>
      match s with
      | String c _ => Ok (VStr (String c EmptyString))
      | EmptyString => Raise IndexError
      end
  | VDict _ => Raise KeyError
  | VNone | VBool _ | VInt _ => Raise TypeError
  end.

(** ** Strings *)

(** [p in s] for strs. *)
Fixpoint is_substring (p s : string) : bool :=
  String.prefix p s ||
  match s with
  | String _ s' => is_substring p s'
  | EmptyString => false
  end.

(** [c in s] for a one-character [c]. *)
Fixpoint contains (c : ascii) (s : string) : bool :=
  match s with
  | String a s' => Ascii.eqb a c || contains c s'
  | EmptyString => false
  end.

(** [s.split(sep)] for a one-character separator. *)
Fixpoint split (sep : ascii) (s : string) : list string :=
  match s with
  | EmptyString => [EmptyString]
  | String c s' =>
      if Ascii.eqb c sep then EmptyString :: split sep s'
      else
        match split sep s' with
        | seg :: segs => String c seg :: segs
        | [] => [String c EmptyString]
        end
  end.

(** [s.split(sep, 1)]: at most one split, at the first separator. *)
Fixpoint split1 (sep : ascii) (s : string) : list string :=
  match s with
  | EmptyString => [EmptyString]
  | String c s' =>
      if Ascii.eqb c sep then [EmptyString; s']
      else
        match split1 sep s' with
        | seg :: segs => String c seg :: segs
        | [] => [String c EmptyString]
        end
  end.

(** [c.isspace()] on the code points below 256: the ASCII controls
    9-13 and 28-31, the space, NEL and the no-break space. *)
Definition isspace (c : ascii) : bool :=
  let n := N_of_ascii c in
  ((9 <=? n) && (n <=? 13) || (28 <=? n) && (n <=? 32) || (n =? 133) || (n =? 160))%N.

Fixpoint lstrip (s : string) : string :=
  match s with
  | String c s' => if isspace c then lstrip s' else s
  | EmptyString => EmptyString
  end.

Fixpoint rstrip (s : string) : string :=
  match s with
  | String c s' =>
      match rstrip s' with
      | EmptyString => if isspace c then EmptyString else String c EmptyString
      | r => String c r
      end
  | EmptyString => EmptyString
  end.

(** [s.strip()] *)
Definition strip (s : string) : string := rstrip (lstrip s).

(** [item in container] for a str [item]. *)
Definition py_contains (item : string) (container : value) : result bool :=
  match container with
  | VDict d => Ok (bool_decide (is_Some (d !! item)))
  | VList l =>
      Ok (existsb (λ v, match v with VStr s => String.eqb s item | _ => false end) l)
  | VStr s => Ok (is_substring item s)
  | VNone | VBool _ | VInt _ => Raise TypeError
  end.

(** [v.split(",")]: only a str has the method. *)
Definition py_split_comma (v : value) : result (list string) :=
  match v with
  | VStr s => Ok (split "," s)
  | _ => Raise AttributeError
  end.

(** ** Binary64 arithmetic *)

(** Nearest integer to [num / den] for [den > 0], ties to the even one. *)
Definition round_half_even (num den : Z) : Z :=
  let q := num / den in
  let r := num mod den in
  if 2 * r <? den then q
  else if den <? 2 * r then q + 1
  else if Z.even q then q else q + 1.

(** One unit of magnitude is 2^-1074, so [1.0] is [2^1074] units and the
    first magnitude that is too large for a float is 2^1024, [2^2098]
    units. *)
Definition one : Z := 2 ^ 1074.
Definition overflow_threshold : Z := 2 ^ 2098.

Record float := Float { fneg : bool; fmag : Z }.

(** Round the non-negative rational [num / den] units to the nearest
    float magnitude, ties to even: below 2^53 units the floats are one
    unit apart, and from 2^j units on (j >= 52) they are 2^(j-52)
    units apart. *)
Definition round_binary64 (num den : Z) : Z :=
  let k := Z.max 0 (Z.log2 (num / den) - 52) in
  round_half_even num (den * 2 ^ k) * 2 ^ k.

(** [float(z)] for an int [z]. *)
Definition float_of_int (z : Z) : result float :=
  let m := round_binary64 (Z.abs z * one) 1 in
  if overflow_threshold <=? m then Raise OverflowError
  else Ok (Float (z <? 0) m).

(** [a / b] for ints: the correctly rounded quotient. *)
Definition int_truediv (a b : Z) : result float :=
  if b =? 0 then Raise ZeroDivisionError
  else
    let m := round_binary64 (Z.abs a * one) (Z.abs b) in
    if overflow_threshold <=? m then Raise OverflowError
    else Ok (Float (xorb (a <? 0) (b <? 0)) m).

(** [x / n] for a float [x] and an int [n]: [n] is converted first. *)
Definition float_div_int (x : float) (n : Z) : result float :=
  y ← float_of_int n;
  if fmag y =? 0 then Raise ZeroDivisionError
  else Ok (Float (xorb (fneg x) (fneg y))
                 (round_binary64 (fmag x * one) (fmag y))).

(** [x < n] for a float [x] and an int [n]; Python compares exactly. *)
Definition float_lt_int (x : float) (n : Z) : bool :=
  (if fneg x then - fmag x else fmag x) <? n * one.

(** The format [f"{x:.0f}"]: the exact value rounded half to even, with
    the sign kept even when the digits are all zero. *)
Definition format_f0 (x : float) : string :=
  (if fneg x then "-" else "") +:+ pretty (round_half_even (fmag x) one).

(** ** [models.py] *)

Module models.
Record AppResponse := {
  name : option string;
  size : option string;
  downloads : option string;
  version : option string;
  release_date : option string;
  min_screen : option string;
  supported_cpu : option string;
  package_id : option string;
  sha1_signature : option string;
  developer_cn : option string;
  organization : option string;
  local : option string;
  country : option string;
  state_city : option string
}.
End models.

(** ** The host environment

    What the source takes from outside the repository. *)

Record response := Response {
  status_code : Z;
  json : option value   (* [response.json()]: the decoded body, [None] when it is not JSON *)
}.

Inductive get_outcome :=
| GetRaised (e : string)       (* [client.get] raised [Exception e]; the text is [str(e)] *)
| GetReturned (r : response).

Class Host := {
  (** [await client.get(url, params=...)] under the 10 second timeout *)
  http_get : string → list (string * string) → get_outcome;
  (** the builtin [float] on a non-empty [str]; [None] is its [ValueError] *)
  float_of_str : string → option float;
  (** pydantic's conversion to [str] of a value that is neither [None]
      nor a [str]; [None] is a validation error *)
  coerce_str : value → option string
}.

Section Service.
Context `{Host}.

(** ** [format_size] *)

(** [float(v)] *)
Definition py_float (v : value) : result float :=
  match v with
  | VBool b => float_of_int (Z.b2z b)
  | VInt z => float_of_int z
  | VStr s =>
      match float_of_str s with
      | Some x => Ok x
      | None => Raise ValueError
      end
  | VNone | VList _ | VDict _ => Raise TypeError
  end.

(** The loop [for unit in units] with the statement after it. *)
Fixpoint format_size_loop (units : list string) (size : float) : result string :=
  match units with
  | [] => Ok (format_f0 size +:+ " TB")
  | unit :: units' =>
      if float_lt_int size 1024 then Ok (format_f0 size +:+ " " +:+ unit)
      else size' ← float_div_int size 1024; format_size_loop units' size'
  end.

Definition format_size (bytes_value : value) : result (option string) :=
  if negb (truthy bytes_value) then Ok None
  else
    size ← py_float bytes_value;
    s ← format_size_loop ["B"; "KB"; "MB"; "GB"] size;
    Ok (Some s).

(** ** [format_downloads] *)

(** The body of [format_downloads] below the guard, for an int. *)
Definition format_downloads_int (downloads : Z) : result string :=
  if 1000000000 <=? downloads then
    x ← int_truediv downloads 1000000000; Ok (format_f0 x +:+ "B")
  else if 1000000 <=? downloads then
    x ← int_truediv downloads 1000000; Ok (format_f0 x +:+ "M")
  else if 1000 <=? downloads then
    x ← int_truediv downloads 1000; Ok (format_f0 x +:+ "K")
  else Ok (pretty downloads).

(** [True] compares as 1 and prints as [True]; a non-empty str, list or
    dict cannot be compared with an int. *)
Definition format_downloads (downloads : value) : result (option string) :=
  if negb (truthy downloads) then Ok None
  else
    match downloads with
    | VInt n => Some <$> format_downloads_int n
    | VBool _ => Ok (Some "True")
    | VNone | VStr _ | VList _ | VDict _ => Raise TypeError
    end.


(** ** [parse_certificate] *)

(** The loop over [owner.split(",")], filling [kv_pairs]. *)
Fixpoint collect_pairs (segs : list string) (kv_pairs : gmap string string)
  : result (gmap string string) :=
  match segs with
  | [] => Ok kv_pairs
  | kv :: segs' =>
      if contains "=" kv then
        match split1 "=" kv with
        | [key; val] => collect_pairs segs' (<[strip key := strip val]> kv_pairs)
        | _ => Raise ValueError       (* [key, value = ...] with another length *)
        end
      else collect_pairs segs' kv_pairs
  end.

Definition parse_certificate (cert_obj : value) : result (gmap string value) :=
  if negb (truthy cert_obj) then Ok ∅
  else
    has_owner ← py_contains "owner" cert_obj;
    if negb has_owner then Ok ∅
    else
      owner ← py_getitem cert_obj "owner";
      segs ← py_split_comma owner;
      kv_pairs ← collect_pairs segs ∅;
      Ok (<["developer_cn" := of_option_str (kv_pairs !! "CN")]>
         (<["organization" := of_option_str (kv_pairs !! "O")]>
         (<["local" := of_option_str (kv_pairs !! "L")]>
         (<["state_city" := of_option_str (kv_pairs !! "ST")]>
         (<["country" := of_option_str (kv_pairs !! "C")]> ∅))))).

(** ** [fetch_from_aptoide] *)

Definition APTOIDE_URL : string := "https://ws75.aptoide.com/api/7/apps/search".

Definition fetch_from_aptoide (package_name : string) : result value :=
  match http_get APTOIDE_URL [("query", package_name)] with
  | GetRaised e =>
      Raise (HTTPException 500 ("Connection error while requesting Aptoide: " +:+ e))
  | GetReturned response =>
      if negb (status_code response =? 200) then
        Raise (HTTPException 500
                 ("Aptoide API error: HTTP " +:+ pretty (status_code response)))
      else
        match json response with
        | Some data => Ok data
        | None => Raise JSONDecodeError
        end
  end.

(** ** [AppResponse(...)] *)

(** Modelled from the spec: pydantic's [BaseModel] is not under src/,
    only the declaration of the fields is.  "All fields are optional -
    any may be absent if the source data lacks them": a keyword that is
    not passed, or is [None], leaves the field absent; a str fills it;
    any other value goes through the host's conversion. *)
Definition validate_optional_str (v : value) : result (option string) :=
  match v with
  | VNone => Ok None
  | VStr s => Ok (Some s)
  | _ =>
      match coerce_str v with
      | Some s => Ok (Some s)
      | None => Raise ValidationError
      end
  end.

Definition validate_field (kwargs : gmap string value) (field : string)
  : result (option string) :=
  validate_optional_str (default VNone (kwargs !! field)).

Definition new_AppResponse (kwargs : gmap string value) : result models.AppResponse :=
  name ← validate_field kwargs "name";
  size ← validate_field kwargs "size";
  downloads ← validate_field kwargs "downloads";
  version ← validate_field kwargs "version";
  release_date ← validate_field kwargs "release_date";
  min_screen ← validate_field kwargs "min_screen";
  supported_cpu ← validate_field kwargs "supported_cpu";
  package_id ← validate_field kwargs "package_id";
  sha1_signature ← validate_field kwargs "sha1_signature";
  developer_cn ← validate_field kwargs "developer_cn";
  organization ← validate_field kwargs "organization";
  local ← validate_field kwargs "local";
  country ← validate_field kwargs "country";
  state_city ← validate_field kwargs "state_city";
  Ok (models.Build_AppResponse name size downloads version release_date
        min_screen supported_cpu package_id sha1_signature
        developer_cn organization local country state_city).

(** ** [get_aptoide_app] *)

Definition get_aptoide_app (package_name : string) : result models.AppResponse :=
  (* Step 1: request data from Aptoide *)
  data ← fetch_from_aptoide package_name;
  (* Step 2: ensure at least one result exists *)
  datalist ← py_get data "datalist" (VDict ∅);
  apps ← py_get datalist "list" (VList []);
  if negb (truthy apps) then Raise (HTTPException 404 "Package not found")
  else
    app_data ← py_getitem0 apps;
    file_data ← py_get app_data "file" (VDict ∅);
    signature ← py_get file_data "signature" (VDict ∅);
    (* Step 3: parse certificate metadata *)
    cert_fields ← parse_certificate signature;
    (* Step 4: the keyword arguments, evaluated left to right *)
    name ← py_get app_data "name" VNone;
    size ← py_get app_data "size" VNone ≫= format_size;
    downloads ← py_get app_data "downloads" VNone ≫= format_downloads;
    version ← py_get file_data "vername" VNone;
    release_date ← py_get file_data "added" VNone;
    min_screen ← py_get file_data "screensize" VNone;
    supported_cpu ← py_get file_data "cpu" VNone;
    package_id ← py_get app_data "package" VNone;
    sha1_signature ← py_get signature "sha1" VNone;
    new_AppResponse
      (<["name" := name]>
      (<["size" := of_option_str size]>
      (<["downloads" := of_option_str downloads]>
      (<["version" := version]>
      (<["release_date" := release_date]>
      (<["min_screen" := min_screen]>
      (<["supported_cpu" := supported_cpu]>
      (<["package_id" := package_id]>
      (<["sha1_signature" := sha1_signature]> cert_fields))))))))).

End Service.

(** A host for worked examples: the request ends in [outcome], [float]
    accepts no str and pydantic converts nothing. *)
Definition example_host (outcome : get_outcome) : Host := {|
  http_get := λ _ _, outcome;
  float_of_str := λ _, None;
  coerce_str := λ _, None
|}.

(** A payload with the given result list. *)
Definition search_payload (results : list value) : value :=
  VDict {[ "datalist" := VDict {[ "list" := VList results ]} ]}.

(** A host whose request is answered 200 with the given payload. *)
Definition answering_host (data : value) : Host :=
  example_host (GetReturned (Response 200 (Some data))).

(** The result that [tests/test_api.py] mocks in [test_valid_response]. *)
Definition test_app : value :=
  VDict (<["name" := VStr "Test App"]>
        (<["size" := VInt (1024 * 1024 * 20)]>
        (<["downloads" := VInt 2000000]>
        (<["package" := VStr "com.test.app"]>
        (<["file" :=
             VDict (<["vername" := VStr "1.0.0"]>
                   (<["added" := VStr "2025-01-01"]>
                   (<["screensize" := VStr "SMALL"]>
                   (<["cpu" := VStr "arm64-v8a"]>
                   (<["signature" :=
                        VDict (<["sha1" := VStr "AA:BB:CC"]>
                              (<["owner" := VStr "CN=Dev, O=Org, L=City, ST=State, C=US"]>
                               ∅))]> ∅)))))]> ∅))))).

(** A host that answers each query on its own: [answer q] is how the
    request for the package [q] ends. *)
Definition query_host (answer : string → get_outcome) : Host := {|
  http_get := λ _ params,
    match params with
    | [(_, q)] => answer q
    | _ => GetRaised ""
    end;
  float_of_str := λ _, None;
  coerce_str := λ _, None
|}.

(** ** Vocabulary of the specification *)

(** [q] is a nearest integer to [num / den], and the even one of the
    two when [num / den] lies half way. *)
Definition nearest_even (num den q : Z) : Prop :=
  2 * Z.abs (q * den - num) ≤ den ∧
  (2 * Z.abs (q * den - num) = den → Z.even q = true).

(** The magnitude of [B / 1024^j] for an int [B]. *)
Definition scaled (B j : Z) : Z := B * 2 ^ (1074 - 10 * j).

(** The unit tiers of the Size Formatter, by exponent of 1024. *)
Definition unit_name (k : Z) : string :=
  match k with
  | 0 => "B"
  | 1 => "KB"
  | 2 => "MB"
  | 3 => "GB"
  | _ => "TB"
  end.

(** The text before and after the first [sep] of [s], when there is one. *)
Fixpoint break (sep : ascii) (s : string) : option (string * string) :=
  match s with
  | EmptyString => None
  | String c s' =>
      if Ascii.eqb c sep then Some (EmptyString, s')
      else
        match break sep s' with
        | Some (k, v) => Some (String c k, v)
        | None => None
        end
  end.

(** The segments put back together, [sep] between them. *)
Fixpoint join (sep : ascii) (segs : list string) : string :=
  match segs with
  | [] => EmptyString
  | [seg] => seg
  | seg :: segs' => seg +:+ String sep (join sep segs')
  end.

Definition all_space (s : string) : Prop :=
  Forall (λ c, isspace c = true) (String.list_ascii_of_string s).

(** [s] neither starts nor ends with whitespace. *)
Definition trimmed (s : string) : Prop :=
  match String.list_ascii_of_string s with
  | [] => True
  | c :: cs => isspace c = false ∧ isspace (List.last cs c) = false
  end.

(** The attribute of one comma-segment of a distinguished name: the
    segment is cut at its first [=], both sides are trimmed; a segment
    with no [=] has none. *)
Definition dn_attribute (seg : string) : option (string * string) :=
  match break "=" seg with
  | Some (k, v) => Some (strip k, strip v)
  | None => None
  end.

(** The attributes of an owner string, in the order of the segments. *)
Definition dn_attributes (owner : string) : list (string * string) :=
  omap dn_attribute (split "," owner).

(** The first pair with the key [key]. *)
Fixpoint assoc (key : string) (l : list (string * string)) : option string :=
  match l with
  | [] => None
  | (k, v) :: l' => if String.eqb k key then Some v else assoc key l'
  end.

(** The value of the attribute [key] of an owner string: of the last
    one, when the key occurs more than once. *)
Definition dn_field (key owner : string) : option string :=
  assoc key (reverse (dn_attributes owner)).

(** What the Certificate Parser makes of an owner string. *)
Definition certificate_fields (owner : string) : gmap string value :=
  <["developer_cn" := of_option_str (dn_field "CN" owner)]>
  (<["organization" := of_option_str (dn_field "O" owner)]>
  (<["local" := of_option_str (dn_field "L" owner)]>
  (<["state_city" := of_option_str (dn_field "ST" owner)]>
  (<["country" := of_option_str (dn_field "C" owner)]> ∅)))).

(** The inputs the Certificate Parser is written for, with the owner
    string they carry: no object, an object without [owner], an object
    whose [owner] is a str. *)
Inductive certificate_input : value → option string → Prop :=
| certificate_none : certificate_input VNone None
| certificate_no_owner d :
    d !! "owner" = None → certificate_input (VDict d) None
| certificate_owner d owner :
    d !! "owner" = Some (VStr owner) → certificate_input (VDict d) (Some owner).

(** The value under a path of keys through nested objects. *)
Fixpoint at_path (path : list string) (v : value) : option value :=
  match path with
  | [] => Some v
  | key :: path' =>
      match v with
      | VDict d =>
          match d !! key with
          | Some v' => at_path path' v'
          | None => None
          end
      | _ => None
      end
  end.

(** The str under a path; absent when the path leads nowhere or to
    something that is not a str. *)
Definition str_at (path : list string) (v : value) : option string :=
  match at_path path v with
  | Some (VStr s) => Some s
  | _ => None
  end.

(** A search result as the handler expects it: an object whose text
    attributes are strs (or missing, or null), whose counts are ints
    below 2^1023 in magnitude (or missing, or null), whose [file] and
    [file.signature], when present, are objects, and whose
    [file.signature.owner], when present, is a str. *)
Definition is_optional_str (o : option value) : bool :=
  match o with
  | None | Some VNone | Some (VStr _) => true
  | _ => false
  end.

Definition is_optional_count (o : option value) : bool :=
  match o with
  | None | Some VNone => true
  | Some (VInt z) => Z.abs z <? 2 ^ 1023
  | _ => false
  end.

Definition is_optional_object (check : gmap string value → bool) (o : option value)
  : bool :=
  match o with
  | None => true
  | Some (VDict d) => check d
  | _ => false
  end.

Definition well_formed_signature (signature : gmap string value) : bool :=
  is_optional_str (signature !! "sha1") &&
  match signature !! "owner" with
  | None | Some (VStr _) => true
  | _ => false
  end.

Definition well_formed_file (file : gmap string value) : bool :=
  is_optional_str (file !! "vername") &&
  is_optional_str (file !! "added") &&
  is_optional_str (file !! "screensize") &&
  is_optional_str (file !! "cpu") &&
  is_optional_object well_formed_signature (file !! "signature").

Definition well_formed_result (app_data : value) : bool :=
  match app_data with
  | VDict d =>
      is_optional_str (d !! "name") &&
      is_optional_count (d !! "size") &&
      is_optional_count (d !! "downloads") &&
      is_optional_str (d !! "package") &&
      is_optional_object well_formed_file (d !! "file")
  | _ => false
  end.

(** The response the specification promises for a first result
    [app_data], given what the two formatters return: each field from
    its JSON path, the certificate fields from the attributes of the
    owner string. *)
Definition first_result_response (app_data : value) (size downloads : option string)
  : models.AppResponse :=
  let owner := str_at ["file"; "signature"; "owner"] app_data in
  {| models.name := str_at ["name"] app_data;
     models.size := size;
     models.downloads := downloads;
     models.version := str_at ["file"; "vername"] app_data;
     models.release_date := str_at ["file"; "added"] app_data;
     models.min_screen := str_at ["file"; "screensize"] app_data;
     models.supported_cpu := str_at ["file"; "cpu"] app_data;
     models.package_id := str_at ["package"] app_data;
     models.sha1_signature := str_at ["file"; "signature"; "sha1"] app_data;
     models.developer_cn := owner ≫= dn_field "CN";
     models.organization := owner ≫= dn_field "O";
     models.local := owner ≫= dn_field "L";
     models.country := owner ≫= dn_field "C";
     models.state_city := owner ≫= dn_field "ST" |}.

(** A computation that raises no [HTTPException]. *)
Definition no_http_error {A} (m : result A) : Prop :=
  ∀ sc detail, m ≠ Raise (HTTPException sc detail).

(** An owner string in the form of the docstring of [parse_certificate]:
    "CN=..., O=..., L=..., ST=..., C=...". *)
Definition owner_string (cn o l st c : string) : string :=
  "CN=" +:+ cn +:+ ", O=" +:+ o +:+ ", L=" +:+ l +:+ ", ST=" +:+ st +:+ ", C=" +:+ c.

(** A certificate object that has the owner string [owner] and nothing
    else. *)
Definition certificate_of (owner : string) : value :=
  VDict {[ "owner" := VStr owner ]}.

(** The keywords the handler passes to [AppResponse] by name. *)
Definition explicit_keywords : list string :=
  ["name"; "size"; "downloads"; "version"; "release_date"; "min_screen";
   "supported_cpu"; "package_id"; "sha1_signature"].

(** The keywords that come from the Certificate Parser. *)
Definition certificate_keywords : list string :=
  ["developer_cn"; "organization"; "local"; "state_city"; "country"].

(** * Properties *)

(** ** The error monad *)

Lemma bind_Ok {A B} (f : A → result B) (a : A) : Ok a ≫= f = f a.
Proof. reflexivity. Qed.

Lemma bind_Raise {A B} (f : A → result B) (e : exn) : Raise e ≫= f = Raise e.
Proof. reflexivity. Qed.

Lemma bind_Ok_inv {A B} (f : A → result B) (m : result A) (b : B) :
  m ≫= f = Ok b → ∃ a, m = Ok a ∧ f a = Ok b.
Proof. destruct m as [a|e]; [eauto | discriminate]. Qed.

(** ** Rounding to the nearest integer *)

Lemma round_half_even_nearest num den :
  0 < den → nearest_even num den (round_half_even num den).
Proof.
  intros Hden. unfold nearest_even, round_half_even.
  pose proof (Z.div_mod num den ltac:(lia)) as Hdm.
  pose proof (Z.mod_pos_bound num den Hden) as Hr.
  set (q := num / den) in *. set (r := num mod den) in *.
  destruct (Z.ltb_spec (2 * r) den) as [H1|H1]; [split; [nia | intros; nia] |].
  destruct (Z.ltb_spec den (2 * r)) as [H2|H2]; [split; [nia | intros; nia] |].
  destruct (Z.even q) eqn:Hq; [split; [nia | done] |].
  split; [nia |]. intros _.
  rewrite Z.even_add, Hq. reflexivity.
Qed.

Lemma nearest_even_unique num den q1 q2 :
  0 < den → nearest_even num den q1 → nearest_even num den q2 → q1 = q2.
Proof.
  intros Hden [H1 E1] [H2 E2].
  destruct (Z.eq_dec q1 q2) as [|Hne]; [done | exfalso].
  assert (Z.abs (q1 - q2) * den ≤ den) as Hd by nia.
  assert (q1 = q2 + 1 ∨ q2 = q1 + 1) as Hcase by nia.
  assert (2 * Z.abs (q1 * den - num) = den) as T1 by nia.
  assert (2 * Z.abs (q2 * den - num) = den) as T2 by nia.
  specialize (E1 T1). specialize (E2 T2).
  destruct Hcase as [-> | ->]; rewrite Z.even_add in *;
    [destruct (Z.even q2) | destruct (Z.even q1)]; discriminate.
Qed.

Lemma round_half_even_unique num den q :
  0 < den → nearest_even num den q → round_half_even num den = q.
Proof.
  intros Hden Hq. eapply nearest_even_unique; eauto using round_half_even_nearest.
Qed.

Lemma round_half_even_exact q den : 0 < den → round_half_even (q * den) den = q.
Proof.
  intros Hden. apply round_half_even_unique; [done |].
  split; [lia | intros; lia].
Qed.

Lemma round_half_even_scale num den c :
  0 < den → 0 < c → round_half_even (num * c) (den * c) = round_half_even num den.
Proof.
  intros Hden Hc. apply round_half_even_unique; [lia |].
  destruct (round_half_even_nearest num den Hden) as [H1 E1].
  set (q := round_half_even num den) in *. unfold nearest_even.
  replace (q * (den * c) - num * c) with ((q * den - num) * c) by ring.
  rewrite Z.abs_mul, (Z.abs_eq c) by lia.
  split; [nia | intros; apply E1; nia].
Qed.

Lemma round_half_even_upper num den :
  0 ≤ num → 0 < den → round_half_even num den * den ≤ num + den.
Proof.
  intros Hnum Hden. destruct (round_half_even_nearest num den Hden) as [H1 _]. lia.
Qed.

Lemma round_half_even_nonneg num den :
  0 ≤ num → 0 < den → 0 ≤ round_half_even num den.
Proof.
  intros Hnum Hden. destruct (round_half_even_nearest num den Hden) as [H1 _]. nia.
Qed.

(** Rounding [num / den] first to a multiple of [1 / t] and then to an
    integer gives the nearest integer to [num / den], when [1 / t] is
    fine enough. *)
Lemma round_half_even_twice num den t :
  0 < den → 0 < t → Z.even den = true → Z.even t = true → den < 2 * t →
  round_half_even (round_half_even (num * t) den) t = round_half_even num den.
Proof.
  intros Hden Ht Eden Et Hfine. apply round_half_even_unique; [done |].
  destruct (round_half_even_nearest num den Hden) as [H1 E1].
  destruct (round_half_even_nearest (num * t) den Hden) as [H2 _].
  set (m := round_half_even num den) in *.
  set (q := round_half_even (num * t) den) in *.
  apply Z.even_spec in Eden as [den' Hden'], Et as [t' Ht'].
  assert (2 * Z.abs (m * t - q) * den ≤ (t + 1) * den) as Hx by nia.
  assert (2 * Z.abs (m * t - q) ≤ t + 1) as Hx' by nia.
  split; [lia |]. intros Htie.
  apply E1.
  destruct (Z.eq_dec (2 * Z.abs (m * den - num)) den) as [|Hne]; [done | exfalso].
  assert (2 * Z.abs (m * den - num) ≤ den - 2) as Hlt by lia.
  nia.
Qed.

(** ** Rounding to binary64 *)

Lemma one_pos : 0 < one.
Proof. unfold one. apply Z.pow_pos_nonneg; lia. Qed.

Lemma overflow_threshold_one : overflow_threshold = 2 ^ 1024 * one.
Proof. unfold overflow_threshold, one. rewrite <- Z.pow_add_r by lia. reflexivity. Qed.

Lemma log2_below q j : 0 ≤ q < 2 ^ j → 0 ≤ j → Z.log2 q ≤ j - 1 ∨ q = 0.
Proof.
  intros [Hq0 Hq] Hj. destruct (Z.eq_dec q 0) as [|Hne]; [by right | left].
  assert (Z.log2 q < j) by (apply Z.log2_lt_pow2; lia). lia.
Qed.

(** A magnitude [m * 2^e] with [m] of at most 53 bits is a float: rounding
    leaves it alone. *)
Lemma round_binary64_exact m e den :
  0 ≤ m < 2 ^ 53 → 0 ≤ e → 0 < den →
  round_binary64 (m * 2 ^ e * den) den = m * 2 ^ e.
Proof.
  intros Hm He Hden. unfold round_binary64.
  rewrite Z.div_mul by lia.
  set (k := Z.max 0 (Z.log2 (m * 2 ^ e) - 52)).
  assert (0 ≤ k ≤ e) as Hk.
  { subst k. destruct (Z.eq_dec m 0) as [->|Hm0].
    - rewrite Z.mul_0_l. change (Z.log2 0) with 0. lia.
    - rewrite Z.log2_mul_pow2 by lia.
      assert (Z.log2 m < 53) by (apply Z.log2_lt_pow2; lia). lia. }
  assert (2 ^ e = 2 ^ (e - k) * 2 ^ k) as He'.
  { rewrite <- Z.pow_add_r by lia. f_equal. lia. }
  assert (0 < 2 ^ k) by (apply Z.pow_pos_nonneg; lia).
  replace (m * 2 ^ e * den) with (m * 2 ^ (e - k) * (den * 2 ^ k))
    by (rewrite He'; ring).
  rewrite round_half_even_exact by lia.
  rewrite He'. ring.
Qed.

(** The rounded magnitude never passes the next power of two. *)
Lemma round_binary64_below num den j :
  0 ≤ num → 0 < den → 53 ≤ j → num < den * 2 ^ j →
  0 ≤ round_binary64 num den ≤ 2 ^ j.
Proof.
  intros Hnum Hden Hj Hlt. unfold round_binary64.
  assert (0 ≤ num / den < 2 ^ j) as Hq.
  { split; [apply Z.div_pos; lia | apply Z.div_lt_upper_bound; lia]. }
  set (k := Z.max 0 (Z.log2 (num / den) - 52)).
  assert (0 ≤ k ≤ j - 53) as Hk.
  { subst k. destruct (log2_below _ _ Hq ltac:(lia)) as [Hl | ->].
    - lia.
    - change (Z.log2 0) with 0. lia. }
  assert (2 ^ j = 2 ^ (j - k) * 2 ^ k) as Hj'.
  { rewrite <- Z.pow_add_r by lia. f_equal. lia. }
  assert (0 < 2 ^ k) by (apply Z.pow_pos_nonneg; lia).
  assert (0 < 2 ^ (j - k)) by (apply Z.pow_pos_nonneg; lia).
  pose proof (round_half_even_upper num (den * 2 ^ k) Hnum ltac:(nia)) as Hup.
  pose proof (round_half_even_nonneg num (den * 2 ^ k) Hnum ltac:(nia)) as Hlo.
  set (r := round_half_even num (den * 2 ^ k)) in *.
  split; [nia |].
  rewrite Hj' in *.
  assert (r * den < (2 ^ (j - k) + 1) * den) by nia.
  assert (r ≤ 2 ^ (j - k)) by nia.
  nia.
Qed.

(** The digits printed for a correctly rounded quotient [num / den] are
    those of the nearest integer to the exact quotient, as long as the
    quotient is below [2^p] and the divisor below [2^(54-p)]. *)
Lemma round_binary64_then_integer num den p :
  0 ≤ num → 0 < den → Z.even den = true → 0 ≤ p ≤ 52 →
  num < den * 2 ^ p → den < 2 ^ (54 - p) →
  round_half_even (round_binary64 (num * one) den) one = round_half_even num den.
Proof.
  intros Hnum Hden Eden Hp Hlt Hfine. unfold round_binary64.
  pose proof one_pos as Hone.
  assert (0 ≤ num * one / den < 2 ^ (p + 1074)) as Hq.
  { split; [apply Z.div_pos; nia |].
    apply Z.div_lt_upper_bound; [lia |].
    rewrite Z.pow_add_r by lia. fold one. nia. }
  set (k := Z.max 0 (Z.log2 (num * one / den) - 52)).
  assert (0 ≤ k ≤ p + 1021) as Hk.
  { subst k. destruct (log2_below _ _ Hq ltac:(lia)) as [Hl | ->].
    - lia.
    - change (Z.log2 0) with 0. lia. }
  set (t := 2 ^ (1074 - k)).
  assert (one = t * 2 ^ k) as Ht.
  { unfold one, t. rewrite <- Z.pow_add_r by lia. f_equal. lia. }
  assert (t = 2 * 2 ^ (1073 - k)) as Ht2.
  { unfold t. replace (1074 - k) with (1 + (1073 - k)) by lia.
    rewrite Z.pow_add_r by lia. reflexivity. }
  assert (0 < 2 ^ k) by (apply Z.pow_pos_nonneg; lia).
  assert (0 < 2 ^ (1073 - k)) by (apply Z.pow_pos_nonneg; lia).
  assert (2 ^ (54 - p) ≤ 2 * t) as Hbig.
  { rewrite Ht2. replace (2 * (2 * 2 ^ (1073 - k))) with (2 ^ (1075 - k)).
    - apply Z.pow_le_mono_r; lia.
    - replace (1075 - k) with (1 + (1 + (1073 - k))) by lia.
      rewrite !Z.pow_add_r by lia. reflexivity. }
  rewrite Ht.
  replace (num * (t * 2 ^ k)) with (num * t * 2 ^ k) by ring.
  rewrite !round_half_even_scale by lia.
  apply round_half_even_twice; [lia | lia | done | | lia].
  rewrite Ht2, Z.even_mul. reflexivity.
Qed.

(** ** Floats that come from ints *)

Lemma append_nil_l (s : string) : "" +:+ s = s.
Proof. reflexivity. Qed.

Lemma append_cons (c : ascii) (s t : string) : String c s +:+ t = String c (s +:+ t).
Proof. reflexivity. Qed.

Lemma float_of_int_exact z :
  Z.abs z < 2 ^ 53 → float_of_int z = Ok (Float (z <? 0) (Z.abs z * one)).
Proof.
  intros Hz. unfold float_of_int.
  assert (round_binary64 (Z.abs z * one) 1 = Z.abs z * one) as ->.
  { unfold one at 1. rewrite <- (Z.mul_1_r (_ * _)).
    rewrite round_binary64_exact by lia. reflexivity. }
  pose proof one_pos.
  destruct (Z.leb_spec overflow_threshold (Z.abs z * one)) as [Hov|]; [| done].
  rewrite overflow_threshold_one in Hov. nia.
Qed.

(** Conversion succeeds well beyond the exact range. *)
Lemma float_of_int_Ok z :
  Z.abs z < 2 ^ 1023 → ∃ m, float_of_int z = Ok (Float (z <? 0) m).
Proof.
  intros Hz. unfold float_of_int. pose proof one_pos.
  destruct (round_binary64_below (Z.abs z * one) 1 2097) as [_ Hm]; [nia | lia | lia | |].
  { replace (2 ^ 2097) with (2 ^ 1023 * one); [nia |].
    unfold one. rewrite <- Z.pow_add_r by lia. reflexivity. }
  destruct (Z.leb_spec overflow_threshold (round_binary64 (Z.abs z * one) 1)) as [Hov|].
  - exfalso. unfold overflow_threshold in Hov.
    assert (2 ^ 2097 < 2 ^ 2098) by (apply Z.pow_lt_mono_r; lia). lia.
  - eauto.
Qed.

Lemma scaled_0 B : scaled B 0 = B * one.
Proof. reflexivity. Qed.

Lemma pow_1024 j : 0 ≤ j → 1024 ^ j = 2 ^ (10 * j).
Proof. intros Hj. rewrite Z.pow_mul_r by lia. reflexivity. Qed.

Lemma one_scaled j :
  0 ≤ j ≤ 107 → one = 2 ^ (1074 - 10 * j) * 1024 ^ j ∧ 0 < 2 ^ (1074 - 10 * j).
Proof.
  intros Hj. unfold one. rewrite pow_1024 by lia. split.
  - rewrite <- Z.pow_add_r by lia. f_equal. lia.
  - apply Z.pow_pos_nonneg; lia.
Qed.

Lemma float_lt_int_scaled B j :
  0 ≤ j ≤ 107 →
  float_lt_int (Float false (scaled B j)) 1024 = (B <? 1024 * 1024 ^ j).
Proof.
  intros Hj. unfold float_lt_int. cbn [fneg fmag].
  destruct (one_scaled j Hj) as [-> Hpos]. unfold scaled.
  set (c := 2 ^ (1074 - 10 * j)) in *.
  replace (1024 * (c * 1024 ^ j)) with (1024 * 1024 ^ j * c) by ring.
  destruct (Z.ltb_spec B (1024 * 1024 ^ j)) as [Hlt|Hge],
    (Z.ltb_spec (B * c) (1024 * 1024 ^ j * c)) as [Hlt'|Hge']; try done.
  - apply (Z.mul_lt_mono_pos_r c) in Hlt; lia.
  - apply (Z.mul_le_mono_pos_r _ _ c) in Hge; lia.
Qed.

Lemma float_div_int_scaled B j :
  0 ≤ B < 2 ^ 53 → 0 ≤ j ≤ 106 →
  float_div_int (Float false (scaled B j)) 1024 = Ok (Float false (scaled B (j + 1))).
Proof.
  intros HB Hj. unfold float_div_int.
  rewrite float_of_int_exact by (cbn; lia).
  change (Z.abs 1024) with 1024. cbn [mbind result_bind fmag fneg].
  pose proof one_pos.
  destruct (Z.eqb_spec (1024 * one) 0) as [|_]; [lia |].
  do 2 f_equal.
  assert (scaled B j = scaled B (j + 1) * 1024) as ->.
  { unfold scaled. rewrite <- Z.mul_assoc. f_equal.
    change 1024 with (2 ^ 10). rewrite <- Z.pow_add_r by lia. f_equal. lia. }
  replace (scaled B (j + 1) * 1024 * one) with (scaled B (j + 1) * (1024 * one)) by ring.
  unfold scaled. apply round_binary64_exact; lia.
Qed.

Lemma format_f0_scaled B j :
  0 ≤ j ≤ 107 →
  format_f0 (Float false (scaled B j)) = pretty (round_half_even B (1024 ^ j)).
Proof.
  intros Hj. unfold format_f0. cbn [fneg fmag]. rewrite append_nil_l. f_equal.
  destruct (one_scaled j Hj) as [-> Hpos]. unfold scaled.
  rewrite (Z.mul_comm (2 ^ _) (1024 ^ j)).
  apply round_half_even_scale; [apply Z.pow_pos_nonneg |]; lia.
Qed.

(** The quotient step of [format_downloads]. *)
Lemma format_truediv a b p (suffix : string) :
  0 ≤ a → 0 < b → Z.even b = true → 0 ≤ p ≤ 52 → a < b * 2 ^ p → b < 2 ^ (54 - p) →
  (x ← int_truediv a b; Ok (format_f0 x +:+ suffix))
  = Ok (pretty (round_half_even a b) +:+ suffix).
Proof.
  intros Ha Hb Eb Hp Hlt Hfine. unfold int_truediv.
  destruct (Z.eqb_spec b 0) as [|_]; [lia |].
  rewrite (Z.abs_eq a), (Z.abs_eq b) by lia.
  pose proof one_pos.
  destruct (round_binary64_below (a * one) b 1127) as [_ Hm]; [nia | lia | lia | |].
  { replace (2 ^ 1127) with (2 ^ 53 * one).
    - assert (2 ^ p ≤ 2 ^ 53) by (apply Z.pow_le_mono_r; lia). nia.
    - unfold one. rewrite <- Z.pow_add_r by lia. reflexivity. }
  destruct (Z.leb_spec overflow_threshold (round_binary64 (a * one) b)) as [Hov|_].
  { exfalso. unfold overflow_threshold in Hov.
    assert (2 ^ 1127 < 2 ^ 2098) by (apply Z.pow_lt_mono_r; lia). lia. }
  cbn [mbind result_bind]. unfold format_f0. cbn [fneg fmag].
  destruct (Z.ltb_spec a 0), (Z.ltb_spec b 0); try lia.
  cbn [xorb]. rewrite append_nil_l.
  by rewrite (round_binary64_then_integer a b p).
Qed.

(** ** [format_size] *)

Lemma format_size_int `{Host} z :
  z ≠ 0 → Z.abs z < 2 ^ 53 →
  format_size (VInt z)
  = s ← format_size_loop ["B"; "KB"; "MB"; "GB"] (Float (z <? 0) (Z.abs z * one));
    Ok (Some s).
Proof.
  intros Hz Hexact. unfold format_size. cbn [truthy].
  destruct (Z.eqb_spec z 0) as [|_]; [done |]. cbn [negb py_float].
  by rewrite float_of_int_exact.
Qed.

Ltac size_tier k :=
  exists k; rewrite format_f0_scaled by lia;
  split; [lia |]; split; [intros; lia |]; split; [| reflexivity];
  let j := fresh "j" in
  let Hj := fresh "Hj" in
  intros j Hj;
  assert (j = 0 ∨ j = 1 ∨ j = 2 ∨ j = 3) as [-> | [-> | [-> | ->]]] by lia; lia.

Ltac size_step :=
  rewrite float_lt_int_scaled by lia;
  match goal with
  | |- context [?B <? 1024 * 1024 ^ ?j] =>
      destruct (Z.ltb_spec B (1024 * 1024 ^ j));
      [| rewrite float_div_int_scaled by lia;
         cbn [mbind result_bind format_size_loop]; cbn [Z.add Pos.add Pos.succ]]
  end.

(** C2, as the code has it: for a positive byte count below 2^53 (the
    ints that [float] represents exactly), the Size Formatter returns the
    nearest integer to [B / 1024^k], ties to even, a space and the unit
    of tier [k], where [k] is the smallest exponent with
    [B / 1024^k < 1024], and 4 (TB) when there is none up to 4. *)
Theorem format_size_tiers `{Host} (B : Z) :
  0 < B < 2 ^ 53 →
  ∃ k, 0 ≤ k ≤ 4 ∧
       (k < 4 → B < 1024 * 1024 ^ k) ∧
       (∀ j, 0 ≤ j < k → 1024 * 1024 ^ j ≤ B) ∧
       format_size (VInt B)
       = Ok (Some (pretty (round_half_even B (1024 ^ k)) +:+ " " +:+ unit_name k)).
Proof.
  intros HB. rewrite format_size_int by lia.
  destruct (Z.ltb_spec B 0) as [|_]; [lia |].
  rewrite Z.abs_eq, <- scaled_0 by lia.
  cbn [format_size_loop].
  size_step; [size_tier 0 |].
  size_step; [size_tier 1 |].
  size_step; [size_tier 2 |].
  size_step; [size_tier 3 |].
  size_tier 4.
Qed.

(** The examples of the docstring of [format_size]: the first holds; for
    the second the docstring says "147 MB", and the code returns
    "146 MB" (153600000 / 1024^2 is 146.48...). *)
Example format_size_docstring_1 `{Host} :
  format_size (VInt 1048576) = Ok (Some "1 MB").
Proof. vm_compute. reflexivity. Qed.

Example format_size_docstring_2 `{Host} :
  format_size (VInt 153600000) = Ok (Some "146 MB").
Proof. vm_compute. reflexivity. Qed.

(** Ties go to the even neighbour: 1.5 KB prints as 2, and so does 2.5 KB. *)
Example format_size_ties `{Host} :
  format_size (VInt 1536) = Ok (Some "2 KB") ∧
  format_size (VInt 2560) = Ok (Some "2 KB").
Proof. split; vm_compute; reflexivity. Qed.

(** C2 fails beyond 2^53: [float] rounds the byte count 2^53 + 2^39 + 1
    down to 2^53 + 2^39, which is 8192.5 TB exactly and prints as 8192,
    while the count itself is above 8192.5 TB and rounds to 8193. *)
Lemma format_size_rounds_its_input :
  let B := 2 ^ 53 + 2 ^ 39 + 1 in
  1024 * 1024 ^ 3 ≤ B ∧
  @format_size (example_host (GetRaised "")) (VInt B) = Ok (Some "8192 TB") ∧
  pretty (round_half_even B (1024 ^ 4)) +:+ " " +:+ unit_name 4 = "8193 TB" ∧
  @format_size (example_host (GetRaised "")) (VInt B)
  ≠ Ok (Some (pretty (round_half_even B (1024 ^ 4)) +:+ " " +:+ unit_name 4)).
Proof.
  cbv zeta. split; [lia |].
  assert (@format_size (example_host (GetRaised "")) (VInt (2 ^ 53 + 2 ^ 39 + 1))
          = Ok (Some "8192 TB")) as Hcode by (vm_compute; reflexivity).
  assert (pretty (round_half_even (2 ^ 53 + 2 ^ 39 + 1) (1024 ^ 4))
            +:+ " " +:+ unit_name 4 = "8193 TB") as Hclaim by (vm_compute; reflexivity).
  split; [exact Hcode |]. split; [exact Hclaim |].
  rewrite Hcode, Hclaim. discriminate.
Qed.

Lemma format_size_tiers_witness :
  ∃ k, 0 ≤ k ≤ 4 ∧
       (k < 4 → 20971520 < 1024 * 1024 ^ k) ∧
       (∀ j, 0 ≤ j < k → 1024 * 1024 ^ j ≤ 20971520) ∧
       @format_size (example_host (GetRaised "")) (VInt 20971520)
       = Ok (Some (pretty (round_half_even 20971520 (1024 ^ k)) +:+ " " +:+ unit_name k)).
Proof. apply (@format_size_tiers (example_host (GetRaised "")) 20971520). lia. Defined.

(** ** [format_downloads] *)

(** C3, as the code has it: for a download count from 0 to below
    2^24 * 10^9, the Download Formatter returns nothing for 0 (and for an
    absent count), the decimal digits of the count up to 999, and above
    that the nearest integer, ties to even, to the count divided by
    10^3, 10^6 or 10^9, followed by K, M or B. *)
Theorem format_downloads_shorthand (D : Z) :
  0 ≤ D < 2 ^ 24 * 10 ^ 9 →
  format_downloads VNone = Ok None ∧
  (D = 0 → format_downloads (VInt D) = Ok None) ∧
  (1 ≤ D ≤ 999 → format_downloads (VInt D) = Ok (Some (pretty D))) ∧
  (1000 ≤ D ≤ 999999 →
   format_downloads (VInt D) = Ok (Some (pretty (round_half_even D 1000) +:+ "K"))) ∧
  (1000000 ≤ D < 1000000000 →
   format_downloads (VInt D) = Ok (Some (pretty (round_half_even D 1000000) +:+ "M"))) ∧
  (1000000000 ≤ D →
   format_downloads (VInt D) = Ok (Some (pretty (round_half_even D 1000000000) +:+ "B"))).
Proof.
  intros HD. split; [done |]. split; [by intros -> |].
  assert (∀ D, D ≠ 0 →
            format_downloads (VInt D) = Some <$> format_downloads_int D) as Hint.
  { intros z Hz. unfold format_downloads. cbn [truthy].
    by destruct (Z.eqb_spec z 0). }
  repeat split; intros Hrange; rewrite Hint by lia; unfold format_downloads_int.
  - destruct (Z.leb_spec 1000000000 D); [lia |].
    destruct (Z.leb_spec 1000000 D); [lia |].
    destruct (Z.leb_spec 1000 D); [lia | done].
  - destruct (Z.leb_spec 1000000000 D); [lia |].
    destruct (Z.leb_spec 1000000 D); [lia |].
    destruct (Z.leb_spec 1000 D); [| lia].
    by rewrite (format_truediv D 1000 10) by (done || lia).
  - destruct (Z.leb_spec 1000000000 D); [lia |].
    destruct (Z.leb_spec 1000000 D); [| lia].
    by rewrite (format_truediv D 1000000 10) by (done || lia).
  - destruct (Z.leb_spec 1000000000 D); [| lia].
    by rewrite (format_truediv D 1000000000 24) by (done || lia).
Qed.

(** C3 fails from 2^24 * 10^9 on: the quotient of 16777216500000001 by
    10^9 is rounded to the float 16777216.5, which prints as 16777216,
    while the exact quotient is above the half and rounds to 16777217. *)
Lemma format_downloads_rounds_the_quotient :
  let D := 16777216500000001 in
  format_downloads (VInt D) = Ok (Some "16777216B") ∧
  pretty (round_half_even D 1000000000) +:+ "B" = "16777217B" ∧
  format_downloads (VInt D) ≠ Ok (Some (pretty (round_half_even D 1000000000) +:+ "B")).
Proof.
  cbv zeta.
  assert (format_downloads (VInt 16777216500000001) = Ok (Some "16777216B")) as Hcode
    by (vm_compute; reflexivity).
  assert (pretty (round_half_even 16777216500000001 1000000000) +:+ "B" = "16777217B")
    as Hclaim by (vm_compute; reflexivity).
  split; [exact Hcode |]. split; [exact Hclaim |].
  rewrite Hcode, Hclaim. discriminate.
Qed.

Lemma format_downloads_shorthand_witness :
  format_downloads VNone = Ok None ∧
  format_downloads (VInt 2000000) = Ok (Some "2M").
Proof.
  destruct (format_downloads_shorthand 2000000)
    as (Hnone & _ & _ & _ & HM & _); [lia |].
  split; [exact Hnone |]. rewrite HM by lia. reflexivity.
Defined.

(** ** Negative counts *)

Lemma pretty_negative (n : Z) : n < 0 → pretty n = "-" +:+ pretty (Z.abs n).
Proof. destruct n; (lia || reflexivity). Qed.




(** ** Strings *)

Lemma break_None sep s : break sep s = None ↔ contains sep s = false.
Proof.
  induction s as [|c s IH]; simpl; [done |].
  destruct (Ascii.eqb c sep); simpl; [done |].
  destruct (break sep s) as [[k v]|]; [| tauto].
  split; [done |]. intros Hc. apply IH in Hc. done.
Qed.

Lemma break_app sep k v :
  contains sep k = false → break sep (k +:+ String sep v) = Some (k, v).
Proof.
  induction k as [|c k IH]; simpl.
  - by rewrite Ascii.eqb_refl.
  - intros Hk. apply orb_false_elim in Hk as [-> Hk]. by rewrite IH.
Qed.

(** [break] cuts at the first separator and nowhere else. *)
Lemma break_Some sep s k v :
  break sep s = Some (k, v) ↔ s = k +:+ String sep v ∧ contains sep k = false.
Proof.
  split; [| intros [-> Hk]; by apply break_app].
  revert k. induction s as [|c s IH]; intros k; simpl; [done |].
  destruct (Ascii.eqb_spec c sep) as [->|Hne].
  - by intros [= <- <-].
  - destruct (break sep s) as [[k' v']|]; [| done].
    intros [= <- <-]. destruct (IH k' eq_refl) as [-> Hk'].
    simpl. split; [done |]. by destruct (Ascii.eqb_spec c sep).
Qed.

(** [s.split(sep, 1)] in terms of [break]. *)
Lemma split1_break sep s :
  split1 sep s =
  match break sep s with
  | Some (k, v) => [k; v]
  | None => [s]
  end.
Proof.
  induction s as [|c s IH]; simpl; [done |].
  destruct (Ascii.eqb c sep); [done |].
  rewrite IH. by destruct (break sep s) as [[k v]|].
Qed.

Lemma split_nonempty sep s : split sep s ≠ [].
Proof.
  destruct s as [|c s]; simpl; [done |].
  destruct (Ascii.eqb c sep); [done |]. by destruct (split sep s).
Qed.

Lemma join_cons sep seg segs :
  segs ≠ [] → join sep (seg :: segs) = seg +:+ String sep (join sep segs).
Proof. by destruct segs. Qed.

Lemma join_cons_char sep c seg segs :
  join sep (String c seg :: segs) = String c (join sep (seg :: segs)).
Proof. by destruct segs. Qed.

(** Splitting loses nothing: the segments joined by the separator are
    the string again, and no segment has a separator left in it. *)
Lemma join_split sep s : join sep (split sep s) = s.
Proof.
  induction s as [|c s IH]; [done |]. cbn [split].
  pose proof (split_nonempty sep s) as Hne.
  destruct (Ascii.eqb_spec c sep) as [->|_].
  - by rewrite join_cons, IH.
  - destruct (split sep s) as [|seg segs]; [done |].
    by rewrite join_cons_char, IH.
Qed.

Lemma split_no_separator sep s :
  Forall (λ seg, contains sep seg = false) (split sep s).
Proof.
  induction s as [|c s IH]; simpl; [by repeat constructor |].
  pose proof (split_nonempty sep s) as Hne.
  destruct (Ascii.eqb_spec c sep) as [->|Hc].
  - by constructor.
  - destruct (split sep s) as [|seg segs]; [done |].
    inversion_clear IH. constructor; [| done]. simpl.
    by destruct (Ascii.eqb_spec c sep).
Qed.

(** Stripping removes whitespace, only whitespace, and all of it at
    both ends. *)
Lemma lstrip_spec s : ∃ l, s = l +:+ lstrip s ∧ all_space l.
Proof.
  induction s as [|c s (l & Hs & Hl)]; [by exists ""; split; [| constructor] |].
  simpl. destruct (isspace c) eqn:Hc.
  - exists (String c l). rewrite append_cons, <- Hs. split; [done | by constructor].
  - exists "". split; [done | constructor].
Qed.

Lemma rstrip_spec s : ∃ r, s = rstrip s +:+ r ∧ all_space r.
Proof.
  induction s as [|c s (r & Hs & Hr)]; [by exists ""; split; [| constructor] |].
  simpl. destruct (rstrip s) as [|c' s'] eqn:Hrs.
  - rewrite append_nil_l in Hs. subst r. destruct (isspace c) eqn:Hc.
    + exists (String c s). split; [done | by constructor].
    + exists s. split; [done | done].
  - exists r. rewrite append_cons, <- Hs. done.
Qed.

Lemma strip_spec s : ∃ l r, s = l +:+ strip s +:+ r ∧ all_space l ∧ all_space r.
Proof.
  destruct (lstrip_spec s) as (l & Hl & ?).
  destruct (rstrip_spec (lstrip s)) as (r & Hr & ?).
  exists l, r. unfold strip. by rewrite <- Hr.
Qed.

Lemma rstrip_head c s c' s' :
  rstrip (String c s) = String c' s' → c' = c.
Proof. simpl. destruct (rstrip s); [destruct (isspace c) |]; congruence. Qed.

Lemma last_cons_default {A} (x : A) (l : list A) (d d' : A) :
  List.last (x :: l) d = List.last (x :: l) d'.
Proof. revert x. induction l as [|y l IH]; intros x; [done |]. apply (IH y). Qed.

Lemma rstrip_last s c cs :
  String.list_ascii_of_string (rstrip s) = c :: cs → isspace (List.last cs c) = false.
Proof.
  revert c cs. induction s as [|a s IH]; intros c cs; simpl; [done |].
  destruct (rstrip s) as [|b r] eqn:Hr.
  - destruct (isspace a) eqn:Ha; simpl; [done |]. by intros [= <- <-].
  - simpl. intros [= <- <-]. specialize (IH b (String.list_ascii_of_string r) eq_refl).
    destruct (String.list_ascii_of_string r) as [|x l]; [done |].
    by rewrite (last_cons_default b (x :: l) a b).
Qed.

Lemma strip_trimmed s : trimmed (strip s).
Proof.
  unfold trimmed, strip.
  destruct (String.list_ascii_of_string (rstrip (lstrip s))) as [|c cs] eqn:Hl; [done |].
  split; [| by eapply rstrip_last].
  assert (∀ s, match lstrip s with String a _ => isspace a = false | _ => True end)
    as Hhead.
  { clear. induction s as [|a s IH]; simpl; [done |].
    by destruct (isspace a) eqn:Ha. }
  specialize (Hhead s). destruct (lstrip s) as [|a t] eqn:Hls; [done |].
  destruct (rstrip (String a t)) as [|a' t'] eqn:Hrs; [done |].
  apply rstrip_head in Hrs as ->. simpl in Hl. by injection Hl as <- _.
Qed.

(** ** [parse_certificate] *)

Lemma assoc_snoc key l k v :
  assoc key (l ++ [(k, v)]) =
  match assoc key l with
  | Some x => Some x
  | None => if String.eqb k key then Some v else None
  end.
Proof.
  induction l as [|[k' v'] l IH]; simpl; [done |].
  by destruct (String.eqb k' key).
Qed.

(** The loop never fails, and what it leaves under a key is the value of
    the last attribute with that key. *)
Lemma collect_pairs_lookup segs (acc : gmap string string) :
  ∃ m, collect_pairs segs acc = Ok m ∧
       ∀ key, m !! key =
              match assoc key (reverse (omap dn_attribute segs)) with
              | Some v => Some v
              | None => acc !! key
              end.
Proof.
  revert acc. induction segs as [|kv segs IH]; intros acc; [by exists acc |].
  cbn [collect_pairs omap list_omap]. unfold dn_attribute at 1.
  rewrite split1_break.
  destruct (contains "=" kv) eqn:Hc, (break "=" kv) as [[k v]|] eqn:Hb.
  - destruct (IH (<[strip k := strip v]> acc)) as (m & -> & Hm).
    exists m. split; [done |]. intros key.
    rewrite Hm, reverse_cons, assoc_snoc.
    destruct (assoc key _); [done |].
    destruct (String.eqb_spec (strip k) key) as [->|Hne].
    + by rewrite lookup_insert_eq.
    + by rewrite lookup_insert_ne.
  - apply break_None in Hb. congruence.
  - apply break_None in Hc. congruence.
  - apply IH.
Qed.

Lemma size_lookup_Some (d : gmap string value) key v :
  d !! key = Some v → Nat.eqb (size d) 0 = false.
Proof.
  intros Hd. apply Nat.eqb_neq. intros Hsize.
  apply map_size_empty_iff in Hsize as ->. by rewrite lookup_empty in Hd.
Qed.

Lemma parse_certificate_owner (d : gmap string value) (owner : string) :
  d !! "owner" = Some (VStr owner) →
  parse_certificate (VDict d) = Ok (certificate_fields owner).
Proof.
  intros Hd. unfold parse_certificate. cbn [truthy py_contains].
  rewrite (size_lookup_Some d _ _ Hd), Hd.
  cbn [negb mbind result_bind py_getitem]. rewrite Hd.
  cbn [mbind result_bind py_split_comma].
  destruct (collect_pairs_lookup (split "," owner) ∅) as (m & -> & Hm).
  cbn [mbind result_bind]. unfold certificate_fields, dn_field, dn_attributes.
  rewrite !Hm, !lookup_empty.
  repeat f_equal; by destruct (assoc _ _).
Qed.

Lemma parse_certificate_no_owner (d : gmap string value) :
  d !! "owner" = None → parse_certificate (VDict d) = Ok ∅.
Proof.
  intros Hd. unfold parse_certificate. cbn [truthy py_contains].
  destruct (Nat.eqb (size d) 0); [done |]. by rewrite Hd.
Qed.

Lemma certificate_fields_lookup owner key :
  certificate_fields owner !! key =
  if String.eqb key "developer_cn" then Some (of_option_str (dn_field "CN" owner))
  else if String.eqb key "organization" then Some (of_option_str (dn_field "O" owner))
  else if String.eqb key "local" then Some (of_option_str (dn_field "L" owner))
  else if String.eqb key "state_city" then Some (of_option_str (dn_field "ST" owner))
  else if String.eqb key "country" then Some (of_option_str (dn_field "C" owner))
  else None.
Proof.
  unfold certificate_fields.
  destruct (String.eqb_spec key "developer_cn") as [->|?];
    [by rewrite lookup_insert_eq | rewrite lookup_insert_ne by done].
  destruct (String.eqb_spec key "organization") as [->|?];
    [by rewrite lookup_insert_eq | rewrite lookup_insert_ne by done].
  destruct (String.eqb_spec key "local") as [->|?];
    [by rewrite lookup_insert_eq | rewrite lookup_insert_ne by done].
  destruct (String.eqb_spec key "state_city") as [->|?];
    [by rewrite lookup_insert_eq | rewrite lookup_insert_ne by done].
  destruct (String.eqb_spec key "country") as [->|?];
    [by rewrite lookup_insert_eq | rewrite lookup_insert_ne by done].
  apply lookup_empty.
Qed.

(** C5: for an object with an owner string, the Certificate Parser
    returns exactly five fields; each is the trimmed value of the last
    comma-segment whose trimmed text before its first [=] is CN, O, L, ST
    or C respectively, and is absent when there is no such segment.
    Segments with no [=] and other keys leave no trace. *)
Theorem parse_certificate_fields (d : gmap string value) (owner : string) :
  d !! "owner" = Some (VStr owner) →
  ∃ m, parse_certificate (VDict d) = Ok m ∧
       m !! "developer_cn" = Some (of_option_str (dn_field "CN" owner)) ∧
       m !! "organization" = Some (of_option_str (dn_field "O" owner)) ∧
       m !! "local" = Some (of_option_str (dn_field "L" owner)) ∧
       m !! "state_city" = Some (of_option_str (dn_field "ST" owner)) ∧
       m !! "country" = Some (of_option_str (dn_field "C" owner)) ∧
       dom m = {["developer_cn"; "organization"; "local"; "state_city"; "country"]}.
Proof.
  intros Hd. exists (certificate_fields owner).
  split; [by apply parse_certificate_owner |].
  rewrite !certificate_fields_lookup. repeat (split; [reflexivity |]).
  unfold certificate_fields.
  rewrite !dom_insert_L, dom_empty_L. set_solver.
Qed.

Lemma parse_certificate_fields_witness :
  ∃ m, parse_certificate
         (VDict {[ "sha1" := VStr "AA:BB:CC";
                   "owner" := VStr "CN=Dev, O=Org, L=City, ST=State, C=US" ]}) = Ok m ∧
       m !! "developer_cn" = Some (VStr "Dev") ∧
       m !! "organization" = Some (VStr "Org") ∧
       m !! "local" = Some (VStr "City") ∧
       m !! "state_city" = Some (VStr "State") ∧
       m !! "country" = Some (VStr "US") ∧
       dom m = {["developer_cn"; "organization"; "local"; "state_city"; "country"]}.
Proof.
  apply (parse_certificate_fields _ "CN=Dev, O=Org, L=City, ST=State, C=US").
  reflexivity.
Defined.

(** C6, as the code has it: on the inputs it is written for (no object,
    an object without [owner], an object whose [owner] is a str) the
    Certificate Parser never fails; without an owner it returns the
    empty mapping; applied to its own output it returns the empty
    mapping, whatever the output was; and an empty owner string gives
    the five fields, all absent. *)
Theorem parse_certificate_total (cert_obj : value) (owner : option string) :
  certificate_input cert_obj owner →
  ∃ m, parse_certificate cert_obj = Ok m ∧
       (owner = None → m = ∅) ∧
       parse_certificate (VDict m) = Ok ∅ ∧
       (owner = Some "" →
        m = <["developer_cn" := VNone]> (<["organization" := VNone]>
            (<["local" := VNone]> (<["state_city" := VNone]>
            (<["country" := VNone]> ∅))))).
Proof.
  destruct 1 as [|d Hd|d owner Hd].
  - exists ∅. repeat split; done.
  - exists ∅. rewrite parse_certificate_no_owner by done. repeat split; done.
  - exists (certificate_fields owner).
    split; [by apply parse_certificate_owner |].
    split; [done |]. split.
    + apply parse_certificate_no_owner.
      rewrite certificate_fields_lookup. reflexivity.
    + intros [= ->]. reflexivity.
Qed.

(** C6 fails as stated: the parser is not idempotent.  Its output for
    the owner "CN=Dev" has five fields, and parsing that output again
    gives the empty mapping. *)
Lemma parse_certificate_not_idempotent :
  let m : gmap string value :=
    <["developer_cn" := VStr "Dev"]> (<["organization" := VNone]>
    (<["local" := VNone]> (<["state_city" := VNone]> (<["country" := VNone]> ∅)))) in
  parse_certificate (VDict {[ "owner" := VStr "CN=Dev" ]}) = Ok m ∧
  parse_certificate (VDict m) = Ok ∅ ∧
  parse_certificate (VDict m) ≠ Ok m.
Proof.
  intros m.
  assert (parse_certificate (VDict m) = Ok ∅) as Hagain
    by (apply parse_certificate_no_owner; reflexivity).
  split; [exact (parse_certificate_owner {[ "owner" := VStr "CN=Dev" ]} "CN=Dev" eq_refl) |].
  split; [exact Hagain |].
  rewrite Hagain. discriminate.
Qed.

(** Outside those inputs the parser can fail: a null owner has no
    [split]. *)
Example parse_certificate_null_owner :
  parse_certificate (VDict {[ "owner" := VNone ]}) = Raise AttributeError.
Proof. reflexivity. Qed.

Lemma parse_certificate_total_witness :
  ∃ m, parse_certificate (VDict {[ "owner" := VStr "" ]}) = Ok m ∧
       (Some "" = None → m = ∅) ∧
       parse_certificate (VDict m) = Ok ∅ ∧
       (Some "" = Some "" →
        m = <["developer_cn" := VNone]> (<["organization" := VNone]>
            (<["local" := VNone]> (<["state_city" := VNone]>
            (<["country" := VNone]> ∅))))).
Proof.
  apply (parse_certificate_total (VDict {[ "owner" := VStr "" ]}) (Some "")).
  apply certificate_owner. reflexivity.
Defined.

(** ** [fetch_from_aptoide] *)

Lemma prefix_app (p s : string) : String.prefix p (p +:+ s) = true.
Proof.
  induction p as [|c p IH]; [by destruct s |].
  simpl. by destruct (ascii_dec c c).
Qed.

Lemma is_substring_prefix (p s : string) :
  String.prefix p s = true → is_substring p s = true.
Proof. destruct s; simpl; by intros ->. Qed.

Lemma is_substring_app_l (p s : string) : is_substring p (p +:+ s) = true.
Proof. apply is_substring_prefix, prefix_app. Qed.

Lemma is_substring_app_r (p s : string) : is_substring s (p +:+ s) = true.
Proof.
  induction p as [|c p IH].
  - rewrite append_nil_l. apply is_substring_prefix.
    induction s as [|c s IH]; [done |]. simpl. by destruct (ascii_dec c c).
  - rewrite append_cons. simpl. rewrite IH. apply orb_true_r.
Qed.

(** C7, as the code has it: the Remote Fetcher returns the decoded body
    exactly when the remote answers 200 with a body that is JSON; it
    fails with status 500 exactly when the request raises (no
    connection, timeout) or the remote answers another status, and it
    raises no other HTTP error; when the request raises, the detail has
    "Connection error" and the text of the cause in it. *)
Theorem fetch_from_aptoide_outcomes `{Host} (package_name : string) :
  let outcome := http_get APTOIDE_URL [("query", package_name)] in
  (∀ data, fetch_from_aptoide package_name = Ok data ↔
           ∃ r, outcome = GetReturned r ∧ status_code r = 200 ∧ json r = Some data) ∧
  ((∃ detail, fetch_from_aptoide package_name = Raise (HTTPException 500 detail)) ↔
   (∃ e, outcome = GetRaised e) ∨
   (∃ r, outcome = GetReturned r ∧ status_code r ≠ 200)) ∧
  (∀ sc detail,
     fetch_from_aptoide package_name = Raise (HTTPException sc detail) → sc = 500) ∧
  (∀ e, outcome = GetRaised e →
        ∃ detail, fetch_from_aptoide package_name = Raise (HTTPException 500 detail) ∧
                  is_substring "Connection error" detail = true ∧
                  is_substring e detail = true).
Proof.
  intros outcome. unfold fetch_from_aptoide. fold outcome.
  destruct outcome as [e|[sc body]]; cbn [status_code json].
  - split; [naive_solver |]. split; [naive_solver |]. split; [naive_solver |].
    intros e' [= <-]. eexists. split; [done |]. split.
    + reflexivity.
    + apply is_substring_app_r.
  - destruct (Z.eqb_spec sc 200) as [->|Hsc]; cbn [negb].
    + destruct body as [data|]; repeat split; naive_solver.
    + repeat split; try naive_solver;
        intros _; right; by exists (Response sc body).
Qed.

(** C7 fails as stated when the remote answers 200 with a body that is
    not JSON: the fetcher then returns nothing, it raises the decoder's
    error. *)
Lemma fetch_from_aptoide_undecodable_body :
  let host := example_host (GetReturned (Response 200 None)) in
  @http_get host APTOIDE_URL [("query", "com.test.app")]
  = GetReturned (Response 200 None) ∧
  @fetch_from_aptoide host "com.test.app" = Raise JSONDecodeError ∧
  ¬ ∃ data, @fetch_from_aptoide host "com.test.app" = Ok data.
Proof. cbv zeta. split; [reflexivity |]. split; [reflexivity |]. by intros [data ?]. Qed.

Lemma fetch_from_aptoide_outcomes_witness :
  ∃ detail,
    @fetch_from_aptoide (example_host (GetRaised "timed out")) "com.test.app"
    = Raise (HTTPException 500 detail) ∧
    is_substring "Connection error" detail = true ∧
    is_substring "timed out" detail = true.
Proof.
  destruct (@fetch_from_aptoide_outcomes (example_host (GetRaised "timed out"))
              "com.test.app") as (_ & _ & _ & Hraised).
  apply Hraised. reflexivity.
Defined.

(** ** What the steps of the handler can raise *)

Lemma no_http_error_Ok {A} (a : A) : no_http_error (Ok a).
Proof. by intros ??. Qed.

Lemma no_http_error_bind {A B} (m : result A) (f : A → result B) :
  no_http_error m → (∀ a, no_http_error (f a)) → no_http_error (m ≫= f).
Proof.
  intros Hm Hf. destruct m as [a|e]; [apply Hf |].
  intros sc detail [= ->]. by apply (Hm sc detail).
Qed.

Lemma no_http_error_py_get v key dflt : no_http_error (py_get v key dflt).
Proof. by destruct v. Qed.

Lemma no_http_error_py_getitem v key : no_http_error (py_getitem v key).
Proof. destruct v as [| | | | |d]; try done. simpl. by destruct (d !! key). Qed.

Lemma no_http_error_py_getitem0 v : no_http_error (py_getitem0 v).
Proof. by destruct v as [| | |[]|[]|]. Qed.

Lemma no_http_error_float_of_int z : no_http_error (float_of_int z).
Proof. unfold float_of_int. by destruct (_ <=? _). Qed.

Lemma no_http_error_format_size_loop units size :
  no_http_error (format_size_loop units size).
Proof.
  revert size. induction units as [|unit units IH]; intros size;
    cbn [format_size_loop]; [done |].
  destruct (float_lt_int size 1024); [done |].
  apply no_http_error_bind; [| done].
  unfold float_div_int. apply no_http_error_bind.
  - apply no_http_error_float_of_int.
  - intros y. by destruct (_ =? _).
Qed.

Lemma no_http_error_format_size `{Host} v : no_http_error (format_size v).
Proof.
  unfold format_size. destruct (truthy v); [| done]. cbn [negb].
  apply no_http_error_bind.
  - destruct v; cbn [py_float]; try done.
    + apply no_http_error_float_of_int.
    + apply no_http_error_float_of_int.
    + by destruct (float_of_str s).
  - intros size. apply no_http_error_bind; [| done].
    apply no_http_error_format_size_loop.
Qed.

Lemma no_http_error_int_truediv (a b : Z) (suffix : string) :
  no_http_error (x ← int_truediv a b; Ok (format_f0 x +:+ suffix)).
Proof.
  apply no_http_error_bind; [| done]. unfold int_truediv.
  destruct (_ =? _); [done |]. by destruct (_ <=? _).
Qed.

Lemma no_http_error_fmap {A B} (f : A → B) (m : result A) :
  no_http_error m → no_http_error (f <$> m).
Proof.
  intros Hm. destruct m as [a|e]; [done |].
  intros sc detail [= ->]. by apply (Hm sc detail).
Qed.

Lemma no_http_error_format_downloads v : no_http_error (format_downloads v).
Proof.
  unfold format_downloads. destruct (truthy v); [| done]. cbn [negb].
  destruct v as [| |n| | |]; try done.
  apply no_http_error_fmap. unfold format_downloads_int.
  destruct (_ <=? _); [apply no_http_error_int_truediv |].
  destruct (_ <=? _); [apply no_http_error_int_truediv |].
  destruct (_ <=? _); [apply no_http_error_int_truediv | done].
Qed.

Lemma no_http_error_collect_pairs segs acc : no_http_error (collect_pairs segs acc).
Proof.
  destruct (collect_pairs_lookup segs acc) as (m & -> & _). done.
Qed.

Lemma no_http_error_parse_certificate v : no_http_error (parse_certificate v).
Proof.
  unfold parse_certificate. destruct (truthy v); [| done]. cbn [negb].
  apply no_http_error_bind; [by destruct v |].
  intros [|]; [| done]. cbn [negb].
  apply no_http_error_bind; [apply no_http_error_py_getitem |]. intros owner.
  apply no_http_error_bind; [by destruct owner |]. intros segs.
  apply no_http_error_bind; [apply no_http_error_collect_pairs | done].
Qed.

Lemma no_http_error_validate_field `{Host} kwargs field :
  no_http_error (validate_field kwargs field).
Proof.
  unfold validate_field, validate_optional_str.
  destruct (default VNone (kwargs !! field)) as [| | | | |] eqn:Hv; try done;
    by destruct (coerce_str _).
Qed.

Lemma no_http_error_new_AppResponse `{Host} kwargs :
  no_http_error (new_AppResponse kwargs).
Proof.
  unfold new_AppResponse.
  repeat (apply no_http_error_bind; [apply no_http_error_validate_field | intros ?]).
  done.
Qed.

(** ** The steps of the handler on a well-formed result *)

Lemma at_path_list_inv data v :
  at_path ["datalist"; "list"] data = Some v →
  ∃ d dl, data = VDict d ∧ d !! "datalist" = Some (VDict dl) ∧ dl !! "list" = Some v.
Proof.
  destruct data as [| | | | |d]; try done. cbn [at_path].
  destruct (d !! "datalist") as [[| | | | |dl]|] eqn:Hd; try done.
  destruct (dl !! "list") as [v'|] eqn:Hdl; [| done].
  intros [= <-]. eauto.
Qed.

Lemma at_path_single (d : gmap string value) key : at_path [key] (VDict d) = d !! key.
Proof. cbn [at_path]. by destruct (d !! key). Qed.

(** A sub-object that is missing reads like an empty one. *)
Lemma optional_object_get check (d : gmap string value) key :
  is_optional_object check (d !! key) = true →
  ∃ f, default (VDict ∅) (d !! key) = VDict f ∧
       (d !! key = Some (VDict f) ∧ check f = true ∨ d !! key = None ∧ f = ∅).
Proof.
  destruct (d !! key) as [[| | | | |f]|]; try done.
  - intros Hf. exists f. split; [done |]. by left.
  - intros _. exists ∅. split; [done |]. by right.
Qed.

Lemma at_path_object (d f : gmap string value) key k path :
  d !! key = Some (VDict f) ∧ True ∨ d !! key = None ∧ f = ∅ →
  at_path (key :: k :: path) (VDict d) = at_path (k :: path) (VDict f).
Proof.
  intros [[Hd _]|[Hd ->]]; cbn [at_path]; rewrite Hd; [done |].
  by rewrite lookup_empty.
Qed.

Lemma validate_optional_str_optional `{Host} (o : option value) :
  is_optional_str o = true →
  validate_optional_str (default VNone o)
  = Ok (match o with Some (VStr s) => Some s | _ => None end).
Proof. by destruct o as [[]|]. Qed.

Lemma validate_of_option_str `{Host} (x : option string) :
  validate_optional_str (of_option_str x) = Ok x.
Proof. by destruct x. Qed.

Lemma float_div_int_1024 x : ∃ y, float_div_int x 1024 = Ok y.
Proof.
  unfold float_div_int. rewrite float_of_int_exact by (cbn; lia).
  cbn [mbind result_bind fmag]. change (Z.abs 1024) with 1024.
  pose proof one_pos. destruct (Z.eqb_spec (1024 * one) 0); [lia | eauto].
Qed.

Lemma format_size_loop_Ok units size : ∃ s, format_size_loop units size = Ok s.
Proof.
  revert size. induction units as [|unit units IH]; intros size;
    cbn [format_size_loop]; [eauto |].
  destruct (float_lt_int size 1024); [eauto |].
  destruct (float_div_int_1024 size) as [y ->]. apply IH.
Qed.

Lemma format_size_optional `{Host} (o : option value) :
  is_optional_count o = true → ∃ s, format_size (default VNone o) = Ok s.
Proof.
  destruct o as [[| |z| | |]|]; try done; [by exists None | | by exists None].
  cbn [is_optional_count default from_option id]. intros Hz%Z.ltb_lt.
  unfold format_size. destruct (truthy (VInt z)); [| by exists None].
  cbn [negb py_float]. destruct (float_of_int_Ok z Hz) as [m ->].
  cbn [mbind result_bind].
  destruct (format_size_loop_Ok ["B"; "KB"; "MB"; "GB"] (Float (z <? 0) m)) as [s ->].
  by exists (Some s).
Qed.

Lemma int_truediv_Ok a b : 0 ≤ a < 2 ^ 1023 → 0 < b → ∃ x, int_truediv a b = Ok x.
Proof.
  intros Ha Hb. unfold int_truediv. destruct (Z.eqb_spec b 0); [lia |].
  rewrite (Z.abs_eq a), (Z.abs_eq b) by lia. pose proof one_pos.
  destruct (round_binary64_below (a * one) b 2097) as [_ Hm]; [nia | lia | lia | |].
  { replace (2 ^ 2097) with (2 ^ 1023 * one); [nia |].
    unfold one. rewrite <- Z.pow_add_r by lia. reflexivity. }
  destruct (Z.leb_spec overflow_threshold (round_binary64 (a * one) b)) as [Hov|].
  - exfalso. unfold overflow_threshold in Hov.
    assert (2 ^ 2097 < 2 ^ 2098) by (apply Z.pow_lt_mono_r; lia). lia.
  - eauto.
Qed.

Lemma format_downloads_optional (o : option value) :
  is_optional_count o = true → ∃ s, format_downloads (default VNone o) = Ok s.
Proof.
  destruct o as [[| |z| | |]|]; try done; [by exists None | | by exists None].
  cbn [is_optional_count default from_option id]. intros Hz%Z.ltb_lt.
  unfold format_downloads. destruct (truthy (VInt z)); [| by exists None].
  cbn [negb]. unfold format_downloads_int.
  destruct (Z.leb_spec 1000000000 z);
    [destruct (int_truediv_Ok z 1000000000) as [x ->]; [lia | lia | by eexists] |].
  destruct (Z.leb_spec 1000000 z);
    [destruct (int_truediv_Ok z 1000000) as [x ->]; [lia | lia | by eexists] |].
  destruct (Z.leb_spec 1000 z);
    [destruct (int_truediv_Ok z 1000) as [x ->]; [lia | lia | by eexists] |].
  by eexists.
Qed.

(** The keyword arguments of [AppResponse(...)], looked up by name. *)
Lemma kwargs_lookup (v1 v2 v3 v4 v5 v6 v7 v8 v9 : value) (cert : gmap string value) key :
  (<["name" := v1]> (<["size" := v2]> (<["downloads" := v3]> (<["version" := v4]>
   (<["release_date" := v5]> (<["min_screen" := v6]> (<["supported_cpu" := v7]>
   (<["package_id" := v8]> (<["sha1_signature" := v9]> cert))))))))) !! key
  = if String.eqb key "name" then Some v1
    else if String.eqb key "size" then Some v2
    else if String.eqb key "downloads" then Some v3
    else if String.eqb key "version" then Some v4
    else if String.eqb key "release_date" then Some v5
    else if String.eqb key "min_screen" then Some v6
    else if String.eqb key "supported_cpu" then Some v7
    else if String.eqb key "package_id" then Some v8
    else if String.eqb key "sha1_signature" then Some v9
    else cert !! key.
Proof.
  repeat (match goal with
          | |- context [String.eqb key ?k] =>
              destruct (String.eqb_spec key k) as [->|?];
              [by rewrite lookup_insert_eq | rewrite lookup_insert_ne by done]
          end).
  done.
Qed.

Lemma handler_well_formed `{Host} package_name data app_data rest :
  fetch_from_aptoide package_name = Ok data →
  at_path ["datalist"; "list"] data = Some (VList (app_data :: rest)) →
  well_formed_result app_data = true →
  ∃ size downloads,
    format_size (default VNone (at_path ["size"] app_data)) = Ok size ∧
    format_downloads (default VNone (at_path ["downloads"] app_data)) = Ok downloads ∧
    get_aptoide_app package_name = Ok (first_result_response app_data size downloads).
Proof.
  intros Hfetch Hlist Hwf.
  apply at_path_list_inv in Hlist as (dd & dl & -> & Hdd & Hdl).
  destruct app_data as [| | | | |d]; try done. cbn [well_formed_result] in Hwf.
  apply andb_prop in Hwf as [Hwf Hfile]. apply andb_prop in Hwf as [Hwf Hpackage].
  apply andb_prop in Hwf as [Hwf Hdownloads]. apply andb_prop in Hwf as [Hname Hsize].
  destruct (optional_object_get _ _ _ Hfile) as (file & Hfile_get & Hfile_at).
  assert (well_formed_file file = true) as Hwf_file
    by (destruct Hfile_at as [[_ ?]|[_ ->]]; done).
  unfold well_formed_file in Hwf_file.
  apply andb_prop in Hwf_file as [Hwf Hsig]. apply andb_prop in Hwf as [Hwf Hcpu].
  apply andb_prop in Hwf as [Hwf Hscreen]. apply andb_prop in Hwf as [Hvername Hadded].
  destruct (optional_object_get _ _ _ Hsig) as (signature & Hsig_get & Hsig_at).
  assert (well_formed_signature signature = true) as Hwf_sig
    by (destruct Hsig_at as [[_ ?]|[_ ->]]; done).
  unfold well_formed_signature in Hwf_sig.
  apply andb_prop in Hwf_sig as [Hsha1 Howner].
  destruct (format_size_optional _ Hsize) as [size Hsize'].
  destruct (format_downloads_optional _ Hdownloads) as [downloads Hdownloads'].
  exists size, downloads. rewrite !at_path_single.
  split; [done |]. split; [done |].
  unfold first_result_response, str_at.
  rewrite !(at_path_object d file) by tauto.
  rewrite !(at_path_object file signature) by tauto.
  rewrite !at_path_single.
  unfold get_aptoide_app. rewrite Hfetch. cbn [mbind result_bind py_get].
  rewrite Hdd. cbn [default from_option id py_get]. rewrite Hdl.
  cbn [default from_option id truthy negb py_getitem0 mbind result_bind py_get].
  rewrite Hfile_get. cbn [mbind result_bind py_get].
  rewrite Hsig_get. cbn [mbind result_bind py_get].
  destruct (signature !! "owner") as [[| | |owner| |]|] eqn:Hown; try done;
    [rewrite (parse_certificate_owner _ _ Hown)
    | rewrite (parse_certificate_no_owner _ Hown)];
    cbn [mbind result_bind]; rewrite Hsize', Hdownloads'; cbn [mbind result_bind];
    unfold new_AppResponse, validate_field; rewrite !kwargs_lookup;
    rewrite ?certificate_fields_lookup, ?lookup_empty;
    cbn [String.eqb Ascii.eqb Bool.eqb];
    cbn [default from_option id];
    rewrite !validate_of_option_str;
    rewrite !validate_optional_str_optional by done;
    reflexivity.
Qed.

(** ** [get_aptoide_app] *)

Ltac no_http :=
  repeat first
    [ apply no_http_error_Ok
    | apply no_http_error_py_get
    | apply no_http_error_py_getitem0
    | apply no_http_error_parse_certificate
    | apply no_http_error_format_size
    | apply no_http_error_format_downloads
    | apply no_http_error_new_AppResponse
    | apply no_http_error_bind; [| intros ?] ].

(** Once the result list has an element, nothing the handler does
    raises an [HTTPException]. *)
Lemma handler_no_http_error `{Host} package_name data app_data rest :
  fetch_from_aptoide package_name = Ok data →
  at_path ["datalist"; "list"] data = Some (VList (app_data :: rest)) →
  no_http_error (get_aptoide_app package_name).
Proof.
  intros Hfetch Hlist.
  apply at_path_list_inv in Hlist as (dd & dl & -> & Hdd & Hdl).
  unfold get_aptoide_app. rewrite Hfetch. cbn [mbind result_bind py_get].
  rewrite Hdd. cbn [default from_option id py_get]. rewrite Hdl.
  cbn [default from_option id truthy negb py_getitem0 mbind result_bind].
  no_http.
Qed.

Lemma handler_empty_list `{Host} package_name (d dl : gmap string value) :
  fetch_from_aptoide package_name = Ok (VDict d) →
  default (VDict ∅) (d !! "datalist") = VDict dl →
  default (VList []) (dl !! "list") = VList [] →
  get_aptoide_app package_name = Raise (HTTPException 404 "Package not found").
Proof.
  intros Hfetch Hd Hdl. unfold get_aptoide_app. rewrite Hfetch.
  cbn [mbind result_bind py_get]. rewrite Hd. cbn [mbind result_bind py_get].
  by rewrite Hdl.
Qed.



(** The mocked response of [test_valid_response], evaluated. *)
Example test_valid_response :
  @get_aptoide_app (answering_host (search_payload [test_app])) "com.test.app"
  = Ok {| models.name := Some "Test App";
          models.size := Some "20 MB";
          models.downloads := Some "2M";
          models.version := Some "1.0.0";
          models.release_date := Some "2025-01-01";
          models.min_screen := Some "SMALL";
          models.supported_cpu := Some "arm64-v8a";
          models.package_id := Some "com.test.app";
          models.sha1_signature := Some "AA:BB:CC";
          models.developer_cn := Some "Dev";
          models.organization := Some "Org";
          models.local := Some "City";
          models.country := Some "US";
          models.state_city := Some "State" |}.
Proof. vm_compute. reflexivity. Qed.


(** The default of [app_data.get("file", {})] covers a missing key, not
    a null: a result whose [file] is null is not well formed, and the
    handler raises [AttributeError] on it. *)
Example get_aptoide_app_null_file :
  let app_data := VDict (<["name" := VStr "App"]> (<["file" := VNone]> ∅)) in
  well_formed_result app_data = false ∧
  @get_aptoide_app (answering_host (search_payload [app_data])) "app"
  = Raise AttributeError.
Proof. cbv zeta. split; [reflexivity | vm_compute; reflexivity]. Qed.




(** C9: when the payload has no [datalist], or its [datalist] has no
    [list], the handler fails with 404 "Package not found", as it does
    for an empty list. *)
Theorem get_aptoide_app_missing_list `{Host} package_name (d : gmap string value) :
  fetch_from_aptoide package_name = Ok (VDict d) →
  d !! "datalist" = None ∨
  (∃ dl, d !! "datalist" = Some (VDict dl) ∧
         (dl !! "list" = None ∨ dl !! "list" = Some (VList []))) →
  get_aptoide_app package_name = Raise (HTTPException 404 "Package not found").
Proof.
  intros Hfetch [Hd|(dl & Hd & [Hdl|Hdl])].
  - apply (handler_empty_list package_name d ∅); by rewrite ?Hd.
  - apply (handler_empty_list package_name d dl); by rewrite ?Hd, ?Hdl.
  - apply (handler_empty_list package_name d dl); by rewrite ?Hd, ?Hdl.
Qed.

Lemma get_aptoide_app_missing_list_witness :
  @get_aptoide_app (answering_host (VDict ∅)) "com.test.app"
  = Raise (HTTPException 404 "Package not found") ∧
  @get_aptoide_app (answering_host (VDict {[ "datalist" := VDict ∅ ]})) "com.test.app"
  = Raise (HTTPException 404 "Package not found").
Proof.
  split.
  - apply (@get_aptoide_app_missing_list (answering_host (VDict ∅)) "com.test.app" ∅);
      [reflexivity | by left].
  - apply (@get_aptoide_app_missing_list
             (answering_host (VDict {[ "datalist" := VDict ∅ ]})) "com.test.app"
             {[ "datalist" := VDict ∅ ]}); [reflexivity |].
    right. exists ∅. split; [reflexivity | by left].
Defined.



(** * Further properties of the code *)

(** ** The errors of the handler *)

Lemma fetch_http_status `{Host} package_name sc detail :
  fetch_from_aptoide package_name = Raise (HTTPException sc detail) → sc = 500.
Proof.
  unfold fetch_from_aptoide.
  destruct (http_get _ _) as [e|[st body]]; cbn [status_code json];
    [by intros [= <- _] |].
  destruct (negb _); [by intros [= <- _] | by destruct body].
Qed.

(** X1: the HTTP errors of the handler are the fetcher's, all of status
    500 and passed on unchanged, and its own 404 "Package not found",
    raised exactly when the fetch succeeded and the result list is
    falsy.  Whatever else goes wrong is no [HTTPException]. *)
Theorem get_aptoide_app_http_errors `{Host} (package_name : string) sc detail :
  get_aptoide_app package_name = Raise (HTTPException sc detail) ↔
  (fetch_from_aptoide package_name = Raise (HTTPException sc detail) ∧ sc = 500) ∨
  (sc = 404 ∧ detail = "Package not found" ∧
   ∃ data datalist apps,
     fetch_from_aptoide package_name = Ok data ∧
     py_get data "datalist" (VDict ∅) = Ok datalist ∧
     py_get datalist "list" (VList []) = Ok apps ∧
     truthy apps = false).
Proof.
  unfold get_aptoide_app.
  destruct (fetch_from_aptoide package_name) as [data|e] eqn:Hfetch;
    cbn [mbind result_bind].
  - destruct (py_get data "datalist" (VDict ∅)) as [datalist|e1] eqn:Hd;
      cbn [mbind result_bind].
    + destruct (py_get datalist "list" (VList [])) as [apps|e2] eqn:Hl;
        cbn [mbind result_bind].
      * destruct (truthy apps) eqn:Ht; cbn [negb].
        -- split.
           ++ intros Hraise. exfalso. revert Hraise.
              generalize sc detail. no_http.
           ++ intros [[? _]|(_ & _ & ? & ? & ? & [= <-] & Hd' & Hl' & Ht')]; [done |].
              rewrite Hd in Hd'. injection Hd' as <-.
              rewrite Hl in Hl'. injection Hl' as <-. congruence.
        -- split.
           ++ intros [= <- <-]. right. repeat split. eauto 10.
           ++ intros [[? _]|(-> & -> & _)]; done.
      * split.
        -- intros [= ->]. exfalso. by apply (no_http_error_py_get _ _ _ _ _ Hl).
        -- intros [[? _]|(_ & _ & ? & ? & ? & [= <-] & Hd' & Hl' & _)]; [done |].
           rewrite Hd in Hd'. injection Hd' as <-. congruence.
    + split.
      * intros [= ->]. exfalso. by apply (no_http_error_py_get _ _ _ _ _ Hd).
      * intros [[? _]|(_ & _ & ? & ? & ? & [= <-] & Hd' & _)]; [done | congruence].
  - split.
    + intros [= ->]. left. split; [done |]. by eapply fetch_http_status.
    + intros [[[= ->] _]|(_ & _ & ? & ? & ? & ? & _)]; done.
Qed.

(** X2: the response, or the error, depends on the first element of the
    result list alone: two requests whose payloads have the same first
    result end the same way, whatever follows it in either list. *)
Theorem get_aptoide_app_ignores_rest `{Host} package_1 package_2 data_1 data_2
    app_data rest_1 rest_2 :
  fetch_from_aptoide package_1 = Ok data_1 →
  fetch_from_aptoide package_2 = Ok data_2 →
  at_path ["datalist"; "list"] data_1 = Some (VList (app_data :: rest_1)) →
  at_path ["datalist"; "list"] data_2 = Some (VList (app_data :: rest_2)) →
  get_aptoide_app package_1 = get_aptoide_app package_2.
Proof.
  intros Hf1 Hf2 Hl1 Hl2.
  apply at_path_list_inv in Hl1 as (d1 & dl1 & -> & Hd1 & Hdl1).
  apply at_path_list_inv in Hl2 as (d2 & dl2 & -> & Hd2 & Hdl2).
  unfold get_aptoide_app. rewrite Hf1, Hf2. cbn [mbind result_bind py_get].
  rewrite Hd1, Hd2. cbn [default from_option id py_get].
  by rewrite Hdl1, Hdl2.
Qed.

Lemma get_aptoide_app_ignores_rest_witness :
  let host := query_host (λ q,
    GetReturned (Response 200 (Some
      (search_payload (if String.eqb q "one" then [test_app]
                       else [test_app; VStr "more"; VNone]))))) in
  @get_aptoide_app host "one" = @get_aptoide_app host "many".
Proof.
  intros host.
  apply (@get_aptoide_app_ignores_rest host "one" "many"
           (search_payload [test_app])
           (search_payload [test_app; VStr "more"; VNone])
           test_app [] [VStr "more"; VNone]); reflexivity.
Defined.

(** X3: a [list] entry that is not a list.  A falsy one (null, false,
    0, the empty string, the empty object) is answered 404 like an
    empty list; a truthy one makes the handler raise: [KeyError] for an
    object (it has no key 0), [AttributeError] for a string (its first
    character has no [get]), [TypeError] for a number or [true]. *)
Theorem get_aptoide_app_list_not_a_list `{Host} package_name
    (d dl : gmap string value) (apps : value) :
  fetch_from_aptoide package_name = Ok (VDict d) →
  d !! "datalist" = Some (VDict dl) →
  dl !! "list" = Some apps →
  (∀ l, apps ≠ VList l) →
  get_aptoide_app package_name =
  if truthy apps then
    Raise (match apps with
           | VDict _ => KeyError
           | VStr _ => AttributeError
           | _ => TypeError
           end)
  else Raise (HTTPException 404 "Package not found").
Proof.
  intros Hfetch Hd Hdl Hnot. unfold get_aptoide_app. rewrite Hfetch.
  cbn [mbind result_bind py_get]. rewrite Hd. cbn [default from_option id py_get].
  rewrite Hdl. cbn [default from_option id mbind result_bind].
  destruct apps as [|b|z|s|l|dd]; cbn [truthy negb].
  - done.
  - by destruct b.
  - by destruct (z =? 0).
  - by destruct s.
  - by destruct (Hnot l).
  - by destruct (Nat.eqb (size dd) 0).
Qed.

Lemma get_aptoide_app_list_not_a_list_witness :
  @get_aptoide_app (answering_host
     (VDict {[ "datalist" := VDict {[ "list" := VNone ]} ]})) "com.test.app"
  = Raise (HTTPException 404 "Package not found") ∧
  @get_aptoide_app (answering_host
     (VDict {[ "datalist" := VDict {[ "list" := VStr "none" ]} ]})) "com.test.app"
  = Raise AttributeError.
Proof.
  split.
  - apply (@get_aptoide_app_list_not_a_list
             (answering_host (VDict {[ "datalist" := VDict {[ "list" := VNone ]} ]}))
             "com.test.app" {[ "datalist" := VDict {[ "list" := VNone ]} ]}
             {[ "list" := VNone ]} VNone); done.
  - apply (@get_aptoide_app_list_not_a_list
             (answering_host (VDict {[ "datalist" := VDict {[ "list" := VStr "none" ]} ]}))
             "com.test.app" {[ "datalist" := VDict {[ "list" := VStr "none" ]} ]}
             {[ "list" := VStr "none" ]} (VStr "none")); done.
Defined.

(** ** More on [parse_certificate] *)

(** On an object the parser looks at the [owner] entry and at nothing
    else. *)
Lemma parse_certificate_dict (d : gmap string value) :
  parse_certificate (VDict d) =
  match d !! "owner" with
  | None => Ok ∅
  | Some (VStr owner) => Ok (certificate_fields owner)
  | Some _ => Raise AttributeError
  end.
Proof.
  destruct (d !! "owner") as [v|] eqn:Hd; [| by apply parse_certificate_no_owner].
  destruct v; try (by apply parse_certificate_owner);
    unfold parse_certificate; cbn [truthy py_contains];
    rewrite (size_lookup_Some d _ _ Hd), Hd; cbn [negb mbind result_bind py_getitem];
    by rewrite Hd.
Qed.

Lemma parse_certificate_Ok_inv v m :
  parse_certificate v = Ok m → m = ∅ ∨ ∃ owner, m = certificate_fields owner.
Proof.
  destruct v as [|b|z|s|l|d].
  - intros [= <-]. by left.
  - unfold parse_certificate. by destruct b; [| intros [= <-]; left].
  - unfold parse_certificate. cbn [truthy]. by destruct (z =? 0); [intros [= <-]; left |].
  - unfold parse_certificate. cbn [truthy py_contains]. destruct (String.eqb s "").
    + intros [= <-]. by left.
    + cbn [negb mbind result_bind]. destruct (is_substring "owner" s); [done |].
      intros [= <-]. by left.
  - unfold parse_certificate. cbn [truthy py_contains]. destruct l as [|x l].
    + intros [= <-]. by left.
    + cbn [negb mbind result_bind]. destruct (existsb _ _); [done |].
      intros [= <-]. by left.
  - rewrite parse_certificate_dict. destruct (d !! "owner") as [[]|]; try done.
    + intros [= <-]. eauto.
    + intros [= <-]. by left.
Qed.

(** X4: the result for an object depends on its [owner] entry alone:
    the [sha1] and whatever else the signature carries never reach the
    certificate fields. *)
Theorem parse_certificate_only_owner (d d' : gmap string value) :
  d !! "owner" = d' !! "owner" →
  parse_certificate (VDict d) = parse_certificate (VDict d').
Proof. intros Heq. by rewrite !parse_certificate_dict, Heq. Qed.

Lemma parse_certificate_only_owner_witness :
  parse_certificate (VDict (<["sha1" := VStr "AA:BB:CC"]> {[ "owner" := VStr "CN=Dev" ]}))
  = parse_certificate (VDict (<["sha1" := VInt 7]> (<["extra" := VList []]>
                                {[ "owner" := VStr "CN=Dev" ]}))).
Proof. apply parse_certificate_only_owner. reflexivity. Defined.

(** X5: whatever the input, a mapping the parser returns has no key
    besides the five certificate keywords; in particular none of the
    nine keywords the handler passes by name, so that expanding the
    mapping into the call of [AppResponse] never repeats a keyword. *)
Theorem parse_certificate_keys (v : value) (m : gmap string value) :
  parse_certificate v = Ok m →
  (∀ key, is_Some (m !! key) → key ∈ certificate_keywords) ∧
  (∀ key, key ∈ explicit_keywords → m !! key = None).
Proof.
  intros [->|[owner ->]]%parse_certificate_Ok_inv.
  - split; intros key; rewrite lookup_empty; [by intros ?%is_Some_None | done].
  - split; intros key; rewrite certificate_fields_lookup.
    + unfold certificate_keywords.
      repeat match goal with
             | |- context [String.eqb key ?k] =>
                 destruct (String.eqb_spec key k) as [->|?]; [set_solver |]
             end.
      by intros ?%is_Some_None.
    + unfold explicit_keywords. rewrite !elem_of_cons, elem_of_nil.
      intros [->|[->|[->|[->|[->|[->|[->|[->|[->|[]]]]]]]]]]; reflexivity.
Qed.

Lemma parse_certificate_keys_witness :
  ∃ m, parse_certificate (certificate_of "CN=Dev, name=x, size=1") = Ok m ∧
       m !! "name" = None ∧ m !! "size" = None.
Proof.
  exists (certificate_fields "CN=Dev, name=x, size=1").
  assert (parse_certificate (certificate_of "CN=Dev, name=x, size=1")
          = Ok (certificate_fields "CN=Dev, name=x, size=1")) as Hparse
    by (by apply parse_certificate_owner).
  split; [exact Hparse |].
  destruct (parse_certificate_keys _ _ Hparse) as [_ Hexplicit].
  split; apply Hexplicit; unfold explicit_keywords.
  - apply list_elem_of_here.
  - apply list_elem_of_further, list_elem_of_here.
Defined.

Lemma assoc_elem_of key l v : assoc key l = Some v → (key, v) ∈ l.
Proof.
  induction l as [|[k x] l IH]; simpl; [done |].
  destruct (String.eqb_spec k key) as [->|_].
  - intros [= ->]. by left.
  - intros Hv. right. by apply IH.
Qed.

Lemma dn_field_trimmed key owner v : dn_field key owner = Some v → trimmed v.
Proof.
  intros Hv%assoc_elem_of. rewrite elem_of_reverse in Hv.
  unfold dn_attributes in Hv. apply list_elem_of_omap in Hv as (seg & _ & Hseg).
  unfold dn_attribute in Hseg. destruct (break "=" seg) as [[k x]|]; [| done].
  injection Hseg as _ <-. apply strip_trimmed.
Qed.

(** X6: every value the parser returns is trimmed: a field is absent
    or a string that neither starts nor ends with whitespace. *)
Theorem parse_certificate_values_trimmed (v : value) (m : gmap string value) key x :
  parse_certificate v = Ok m →
  m !! key = Some x →
  x = VNone ∨ ∃ s, x = VStr s ∧ trimmed s.
Proof.
  intros [->|[owner ->]]%parse_certificate_Ok_inv; [by rewrite lookup_empty |].
  rewrite certificate_fields_lookup.
  assert (∀ K, of_option_str (dn_field K owner) = x →
               x = VNone ∨ ∃ s, x = VStr s ∧ trimmed s) as Hfield.
  { intros K <-. destruct (dn_field K owner) as [s|] eqn:Hs; [| by left].
    right. exists s. split; [done |]. by eapply dn_field_trimmed. }
  repeat match goal with
         | |- context [String.eqb key ?k] =>
             destruct (String.eqb key k); [intros [= Hx]; by eapply Hfield |]
         end.
  done.
Qed.

Lemma parse_certificate_values_trimmed_witness :
  VStr "Dev Team" = VNone ∨ ∃ s, VStr "Dev Team" = VStr s ∧ trimmed s.
Proof.
  apply (parse_certificate_values_trimmed
           (certificate_of "  CN =   Dev Team  , O=x")
           (certificate_fields "  CN =   Dev Team  , O=x") "developer_cn").
  - by apply parse_certificate_owner.
  - reflexivity.
Defined.

(** Splitting a string that has a separator in the middle. *)
Lemma split_app sep (a b : string) :
  split sep (a +:+ String sep b) = split sep a ++ split sep b.
Proof.
  induction a as [|c a IH].
  - rewrite append_nil_l. cbn [split]. by rewrite Ascii.eqb_refl.
  - rewrite append_cons. cbn [split]. rewrite IH.
    pose proof (split_nonempty sep a) as Hne.
    destruct (Ascii.eqb c sep); [done |].
    by destruct (split sep a).
Qed.

Lemma split_no_separator_id sep (s : string) :
  contains sep s = false → split sep s = [s].
Proof.
  induction s as [|c s IH]; [done |]. cbn [contains split].
  intros [Hc Hs]%orb_false_elim. rewrite Hc, (IH Hs). done.
Qed.

Lemma assoc_app key l1 l2 :
  assoc key (l1 ++ l2) =
  match assoc key l1 with
  | Some v => Some v
  | None => assoc key l2
  end.
Proof.
  induction l1 as [|[k v] l1 IH]; simpl; [done |].
  by destruct (String.eqb k key).
Qed.

(** The attributes of two owner strings joined by a comma: those of the
    second one win. *)
Lemma dn_field_app key (a b : string) :
  dn_field key (a +:+ String "," b) =
  match dn_field key b with
  | Some v => Some v
  | None => dn_field key a
  end.
Proof.
  unfold dn_field, dn_attributes.
  by rewrite split_app, omap_app, reverse_app, assoc_app.
Qed.

(** X7: attributes that come later in the owner string replace earlier
    ones.  For two owner strings joined by a comma, each certificate
    field is the one parsed from the second string when that is
    present, and the one parsed from the first string otherwise. *)
Theorem parse_certificate_later_wins (a b : string) :
  ∃ m_a m_b m,
    parse_certificate (certificate_of a) = Ok m_a ∧
    parse_certificate (certificate_of b) = Ok m_b ∧
    parse_certificate (certificate_of (a +:+ "," +:+ b)) = Ok m ∧
    ∀ field, m !! field =
             match m_b !! field with
             | Some (VStr s) => Some (VStr s)
             | _ => m_a !! field
             end.
Proof.
  exists (certificate_fields a), (certificate_fields b),
         (certificate_fields (a +:+ "," +:+ b)).
  repeat (split; [by apply parse_certificate_owner |]).
  intros field. rewrite !certificate_fields_lookup.
  change ("," +:+ b) with (String "," b). rewrite !dn_field_app.
  repeat match goal with
         | |- context [String.eqb field ?k] => destruct (String.eqb field k)
         end;
    try done;
    match goal with
    | |- context [dn_field ?K b] => by destruct (dn_field K b)
    end.
Qed.

Lemma rstrip_fixed (s : string) (c : ascii) :
  isspace (List.last (String.list_ascii_of_string s) c) = false →
  rstrip (String c s) = String c s.
Proof.
  revert c. induction s as [|b s IH]; intros c.
  - cbn [String.list_ascii_of_string List.last rstrip]. by intros ->.
  - intros Hlast.
    assert (rstrip (String b s) = String b s) as Hb.
    { apply IH. cbn [String.list_ascii_of_string] in Hlast.
      destruct (String.list_ascii_of_string s) as [|x l] eqn:Hs; [done |].
      by rewrite (last_cons_default x l b c). }
    change (rstrip (String c (String b s)))
      with (match rstrip (String b s) with
            | EmptyString => if isspace c then EmptyString else String c EmptyString
            | String a r => String c (String a r)
            end).
    by rewrite Hb.
Qed.

(** Stripping leaves a trimmed string alone. *)
Lemma strip_trimmed_id (s : string) : trimmed s → strip s = s.
Proof.
  destruct s as [|c s]; [done |]. unfold trimmed, strip.
  cbn [String.list_ascii_of_string lstrip]. intros [-> Hlast].
  by apply rstrip_fixed.
Qed.

(** X8: parsing reads back what the docstring's format writes.  For an
    owner string "CN=cn, O=o, L=l, ST=st, C=c" whose five values are
    trimmed and have no comma (they may have [=] in them), the parser
    returns exactly cn, o, l, st and c. *)
Theorem parse_certificate_owner_string (cn o l st c : string) :
  Forall (λ v, trimmed v ∧ contains "," v = false) [cn; o; l; st; c] →
  parse_certificate (certificate_of (owner_string cn o l st c))
  = Ok (<["developer_cn" := VStr cn]>
       (<["organization" := VStr o]>
       (<["local" := VStr l]>
       (<["state_city" := VStr st]>
       (<["country" := VStr c]> ∅))))).
Proof.
  intros Hall.
  apply Forall_cons in Hall as [[Tcn Ccn] Hall].
  apply Forall_cons in Hall as [[To Co] Hall].
  apply Forall_cons in Hall as [[Tl Cl] Hall].
  apply Forall_cons in Hall as [[Tst Cst] Hall].
  apply Forall_cons in Hall as [[Tc Cc] _].
  unfold certificate_of. rewrite (parse_certificate_owner _ (owner_string cn o l st c))
    by reflexivity.
  assert (dn_attributes (owner_string cn o l st c)
          = [("CN", cn); ("O", o); ("L", l); ("ST", st); ("C", c)]) as Hattrs.
  { unfold dn_attributes, owner_string.
    replace ("CN=" +:+ cn +:+ ", O=" +:+ o +:+ ", L=" +:+ l +:+ ", ST=" +:+ st
               +:+ ", C=" +:+ c)
      with (("CN=" +:+ cn) +:+ String ","
              ((" O=" +:+ o) +:+ String ","
                 ((" L=" +:+ l) +:+ String ","
                    ((" ST=" +:+ st) +:+ String "," (" C=" +:+ c)))))
      by reflexivity.
    rewrite !split_app.
    rewrite !split_no_separator_id by (cbn [String.append contains Ascii.eqb Bool.eqb orb]; done).
    cbn [app omap list_omap]. unfold dn_attribute.
    change ("CN=" +:+ cn) with ("CN" +:+ String "=" cn).
    change (" O=" +:+ o) with (" O" +:+ String "=" o).
    change (" L=" +:+ l) with (" L" +:+ String "=" l).
    change (" ST=" +:+ st) with (" ST" +:+ String "=" st).
    change (" C=" +:+ c) with (" C" +:+ String "=" c).
    rewrite !break_app by reflexivity.
    rewrite !(strip_trimmed_id cn), !(strip_trimmed_id o), !(strip_trimmed_id l),
      !(strip_trimmed_id st), !(strip_trimmed_id c) by done.
    reflexivity. }
  unfold certificate_fields, dn_field. rewrite Hattrs. reflexivity.
Qed.

Lemma parse_certificate_owner_string_witness :
  parse_certificate
    (certificate_of "CN=Facebook Corporation, O=Facebook Mobile, L=Palo Alto, ST=CA, C=US")
  = Ok (<["developer_cn" := VStr "Facebook Corporation"]>
       (<["organization" := VStr "Facebook Mobile"]>
       (<["local" := VStr "Palo Alto"]>
       (<["state_city" := VStr "CA"]>
       (<["country" := VStr "US"]> ∅))))).
Proof.
  apply (parse_certificate_owner_string
           "Facebook Corporation" "Facebook Mobile" "Palo Alto" "CA" "US").
  repeat constructor.
Defined.

(** ** How far the formatters go *)

Lemma round_half_even_lower num den a :
  0 < den → a * den ≤ num → a ≤ round_half_even num den.
Proof.
  intros Hden Ha. destruct (round_half_even_nearest num den Hden) as [H1 _].
  set (q := round_half_even num den) in *.
  destruct (Z.le_gt_cases a q) as [|Hlt]; [done | exfalso].
  assert (q + 1 ≤ a) as Hq by lia.
  assert ((q + 1) * den ≤ a * den) by (apply Z.mul_le_mono_nonneg_r; lia).
  lia.
Qed.

Lemma round_half_even_upper_bound num den b :
  0 < den → num ≤ b * den → round_half_even num den ≤ b.
Proof.
  intros Hden Hb. destruct (round_half_even_nearest num den Hden) as [H1 _].
  set (q := round_half_even num den) in *.
  destruct (Z.le_gt_cases q b) as [|Hlt]; [done | exfalso].
  assert (b + 1 ≤ q) as Hq by lia.
  assert ((b + 1) * den ≤ q * den) by (apply Z.mul_le_mono_nonneg_r; lia).
  lia.
Qed.

(** Rounding reaches the even integer [P] exactly from [P - 1/2] on. *)
Lemma round_half_even_reaches num den P :
  0 < den → Z.even P = true →
  P ≤ round_half_even num den ↔ (2 * P - 1) * den ≤ 2 * num.
Proof.
  intros Hden HP. destruct (round_half_even_nearest num den Hden) as [H1 E1].
  set (q := round_half_even num den) in *. split.
  - intros Hq.
    assert (P * den ≤ q * den) by (apply Z.mul_le_mono_nonneg_r; lia). lia.
  - intros Hnum. destruct (Z.le_gt_cases P q) as [|Hlt]; [done | exfalso].
    assert (q * den ≤ (P - 1) * den) as Hq
      by (apply Z.mul_le_mono_nonneg_r; lia).
    assert (q = P - 1) as Hq'.
    { destruct (Z.eq_dec q (P - 1)) as [|Hne]; [done | exfalso].
      assert (q * den ≤ (P - 2) * den) by (apply Z.mul_le_mono_nonneg_r; lia).
      lia. }
    assert (Z.even q = true) as Heven by (apply E1; lia).
    rewrite Hq' in Heven. replace (P - 1) with (P + -1) in Heven by lia.
    rewrite Z.even_add, HP in Heven. discriminate.
Qed.

(** The magnitude that is too large: the rounded quotient [num / den]
    reaches 2^1024 exactly when the quotient is at least
    2^1024 - 2^970, half a step below. *)
Lemma round_binary64_overflow num den :
  0 ≤ num → 0 < den →
  overflow_threshold ≤ round_binary64 (num * one) den
  ↔ (2 ^ 1024 - 2 ^ 970) * den ≤ num.
Proof.
  intros Hnum Hden. pose proof one_pos as Hone.
  assert (2 ^ 1024 - 2 ^ 970 = 2 ^ 970 * (2 * 2 ^ 53 - 1)) as -> by reflexivity.
  assert (overflow_threshold = 2 ^ 53 * 2 ^ 2045) as Hthr by reflexivity.
  assert (2 ^ 2045 = 2 ^ 971 * one) as H2045 by reflexivity.
  assert (2 ^ 2097 = 2 ^ 1023 * one) as H2097 by reflexivity.
  assert (2 ^ 2098 = 2 * 2 ^ 2097) as H2098 by reflexivity.
  assert (2 ^ 1023 = 2 ^ 970 * 2 ^ 53) as H1023 by reflexivity.
  assert (2 ^ 971 = 2 * 2 ^ 970) as H971 by reflexivity.
  assert (0 < 2 ^ 970) as Hp970 by (apply Z.pow_pos_nonneg; lia).
  assert (0 < 2 ^ 53) as Hp53 by (apply Z.pow_pos_nonneg; lia).
  assert (0 < 2 ^ 2045) as Hp2045 by (apply Z.pow_pos_nonneg; lia).
  assert (Z.even (2 ^ 53) = true) as Heven by reflexivity.
  set (q0 := num * one / den).
  assert (0 ≤ q0) as Hq0 by (apply Z.div_pos; nia).
  assert (q0 * den ≤ num * one < (q0 + 1) * den) as Hdiv.
  { pose proof (Z.mul_div_le (num * one) den Hden) as Hd1.
    pose proof (Z.mul_succ_div_gt (num * one) den Hden) as Hd2.
    fold q0 in Hd1, Hd2. lia. }
  destruct (Z.lt_ge_cases q0 (2 ^ 2097)) as [Hsmall|Hbig].
  - (* below the last binade: no overflow, and the quotient is small *)
    destruct (round_binary64_below (num * one) den 2097) as [_ Hm]; [nia | lia | lia | nia |].
    split.
    + intros Hov. exfalso. rewrite Hthr in Hov.
      assert (2 ^ 2097 < 2 ^ 53 * 2 ^ 2045) by (rewrite <- Z.pow_add_r by lia; reflexivity).
      lia.
    + intros Hge. exfalso.
      assert (2 ^ 2097 * den ≤ num * one) as Hcontra.
      { rewrite H2097, H1023.
        assert (2 ^ 970 * 2 ^ 53 * den ≤ num) by nia.
        replace (2 ^ 970 * 2 ^ 53 * one * den) with (2 ^ 970 * 2 ^ 53 * den * one) by ring.
        apply Z.mul_le_mono_nonneg_r; lia. }
      assert (2 ^ 2097 * den < (q0 + 1) * den) by lia.
      assert (2 ^ 2097 < q0 + 1) by (apply (Z.mul_lt_mono_pos_r den); lia).
      lia.
  - destruct (Z.lt_ge_cases q0 (2 ^ 2098)) as [Hmid|Hhuge].
    + (* the last binade: the step is 2^2045 *)
      assert (Z.log2 q0 = 2097) as Hlog.
      { apply Z.log2_unique; [lia |]. replace (2097 + 1) with 2098 by lia. lia. }
      unfold round_binary64. fold q0. rewrite Hlog.
      replace (Z.max 0 (2097 - 52)) with 2045 by lia.
      rewrite H2045.
      replace (den * (2 ^ 971 * one)) with (den * 2 ^ 971 * one) by ring.
      rewrite round_half_even_scale by nia.
      rewrite <- H2045, Hthr.
      rewrite <- (Z.mul_le_mono_pos_r _ _ (2 ^ 2045)) by lia.
      rewrite (round_half_even_reaches num (den * 2 ^ 971) (2 ^ 53)) by (done || nia).
      rewrite H971. split; intros Hle; nia.
    + (* beyond: overflow, and the quotient is large *)
      split; [intros _ | intros _].
      * assert (2 ^ 2098 * den ≤ num * one) as Hle by nia.
        rewrite H2098, H2097, H1023 in Hle.
        assert (2 * (2 ^ 970 * 2 ^ 53) * den * one ≤ num * one) by (rewrite <- Hle; lia).
        assert (2 * (2 ^ 970 * 2 ^ 53) * den ≤ num)
          by (apply (Z.mul_le_mono_pos_r _ _ one); lia).
        nia.
      * unfold round_binary64. fold q0.
        assert (0 < q0) as Hq0' by lia.
        pose proof (Z.log2_spec q0 Hq0') as [Hlo Hhi].
        assert (2098 ≤ Z.log2 q0) as Hlog.
        { destruct (Z.lt_ge_cases (Z.log2 q0) 2098) as [Hlt|]; [exfalso | done].
          assert (2 ^ Z.succ (Z.log2 q0) ≤ 2 ^ 2098) by (apply Z.pow_le_mono_r; lia).
          lia. }
        set (L := Z.log2 q0) in *.
        replace (Z.max 0 (L - 52)) with (L - 52) by lia.
        assert (2 ^ L = 2 ^ 52 * 2 ^ (L - 52)) as HL
          by (rewrite <- Z.pow_add_r by lia; f_equal; lia).
        assert (0 < 2 ^ (L - 52)) by (apply Z.pow_pos_nonneg; lia).
        assert (2 ^ 52 ≤ round_half_even (num * one) (den * 2 ^ (L - 52))) as Hr.
        { apply round_half_even_lower; [nia |].
          replace (2 ^ 52 * (den * 2 ^ (L - 52))) with (2 ^ L * den) by (rewrite HL; ring).
          assert (2 ^ L * den ≤ q0 * den) by (apply Z.mul_le_mono_nonneg_r; lia).
          lia. }
        assert (overflow_threshold ≤ 2 ^ L)
          by (unfold overflow_threshold; apply Z.pow_le_mono_r; lia).
        assert (2 ^ 52 * 2 ^ (L - 52)
                ≤ round_half_even (num * one) (den * 2 ^ (L - 52)) * 2 ^ (L - 52))
          by (apply Z.mul_le_mono_nonneg_r; lia).
        lia.
Qed.

(** X9: the Size Formatter fails on an int exactly when [float] cannot
    hold it: it raises [OverflowError] when the magnitude is at least
    2^1024 - 2^970, and returns a value for every smaller int. *)
Theorem format_size_overflow `{Host} (z : Z) :
  (format_size (VInt z) = Raise OverflowError ↔ 2 ^ 1024 - 2 ^ 970 ≤ Z.abs z) ∧
  ((∃ s, format_size (VInt z) = Ok s) ↔ Z.abs z < 2 ^ 1024 - 2 ^ 970).
Proof.
  assert (0 < 2 ^ 1024 - 2 ^ 970) as Hpos by reflexivity.
  pose proof (round_binary64_overflow (Z.abs z) 1 ltac:(lia) ltac:(lia)) as Hov.
  rewrite Z.mul_1_r in Hov.
  set (limit := 2 ^ 1024 - 2 ^ 970) in *.
  unfold format_size. cbn [truthy].
  destruct (Z.eqb_spec z 0) as [->|Hz]; cbn [negb].
  - change (Z.abs 0) with 0. split; split; try done; try lia. by eexists.
  - cbn [py_float]. unfold float_of_int.
    destruct (Z.leb_spec overflow_threshold (round_binary64 (Z.abs z * one) 1))
      as [Hle|Hlt]; cbn [mbind result_bind].
    + apply Hov in Hle. split; split; try done; try lia. by intros [s ?].
    + assert (¬ limit ≤ Z.abs z) as Hno by (intros Hle%Hov; lia).
      destruct (format_size_loop_Ok ["B"; "KB"; "MB"; "GB"]
                  (Float (z <? 0) (round_binary64 (Z.abs z * one) 1))) as [s ->].
      cbn [mbind result_bind]. split; split; try done; try lia. by eexists.
Qed.


(** ** The number in front of the unit *)

Lemma format_size_at_tier `{Host} (B k : Z) :
  0 < B < 2 ^ 53 → 0 ≤ k ≤ 4 →
  (k < 4 → B < 1024 * 1024 ^ k) → (0 < k → 1024 ^ k ≤ B) →
  format_size (VInt B)
  = Ok (Some (pretty (round_half_even B (1024 ^ k)) +:+ " " +:+ unit_name k)).
Proof.
  intros HB Hk Hlt Hge. rewrite format_size_int by lia.
  destruct (Z.ltb_spec B 0) as [|_]; [lia |].
  rewrite Z.abs_eq, <- scaled_0 by lia.
  cbn [format_size_loop].
  assert (k = 0 ∨ k = 1 ∨ k = 2 ∨ k = 3 ∨ k = 4) as Hcase by lia.
  destruct Hcase as [->|[->|[->|[->| ->]]]];
    try (specialize (Hlt ltac:(lia))); try (specialize (Hge ltac:(lia)));
    repeat (size_step;
            [first [ exfalso; lia
                   | rewrite format_f0_scaled by lia; reflexivity ]
            | try (exfalso; lia) ]).
  rewrite format_f0_scaled by lia. reflexivity.
Qed.

(** X11: for a positive byte count below 1024^5 the number the Size
    Formatter prints is between 1 and 1024; it is 1024, under the
    smaller unit, exactly for the counts within half a unit of the next
    tier (from 1023.5 KB up the output is "1024 KB", not "1 MB"). *)
Theorem format_size_prefix `{Host} (B : Z) :
  0 < B < 1024 ^ 5 →
  ∃ k n, 0 ≤ k ≤ 4 ∧ 1 ≤ n ≤ 1024 ∧
         format_size (VInt B) = Ok (Some (pretty n +:+ " " +:+ unit_name k)) ∧
         (n = 1024 ↔ 2047 * 1024 ^ k ≤ 2 * B).
Proof.
  intros HB.
  assert (∃ k, 0 ≤ k ≤ 4 ∧ 1024 ^ k ≤ B < 1024 * 1024 ^ k) as (k & Hk & Htier).
  { destruct (Z.lt_ge_cases B 1024); [exists 0; lia |].
    destruct (Z.lt_ge_cases B (1024 ^ 2)); [exists 1; lia |].
    destruct (Z.lt_ge_cases B (1024 ^ 3)); [exists 2; lia |].
    destruct (Z.lt_ge_cases B (1024 ^ 4)); [exists 3; lia |].
    exists 4; lia. }
  assert (0 < 1024 ^ k) as Hunit by (apply Z.pow_pos_nonneg; lia).
  exists k, (round_half_even B (1024 ^ k)).
  split; [done |]. split; [| split].
  - split.
    + apply round_half_even_lower; lia.
    + apply round_half_even_upper_bound; lia.
  - apply format_size_at_tier; lia.
  - split.
    + intros Hn.
      assert (1024 ≤ round_half_even B (1024 ^ k)) as Hle by lia.
      apply (round_half_even_reaches B (1024 ^ k) 1024) in Hle; [lia | lia | done].
    + intros Hle.
      assert (1024 ≤ round_half_even B (1024 ^ k))
        by (apply (round_half_even_reaches B (1024 ^ k) 1024); [lia | done | lia]).
      assert (round_half_even B (1024 ^ k) ≤ 1024)
        by (apply round_half_even_upper_bound; lia).
      lia.
Qed.

Lemma format_size_prefix_witness :
  ∃ k n, 0 ≤ k ≤ 4 ∧ 1 ≤ n ≤ 1024 ∧
         @format_size (example_host (GetRaised "")) (VInt 1048064)
         = Ok (Some (pretty n +:+ " " +:+ unit_name k)) ∧
         (n = 1024 ↔ 2047 * 1024 ^ k ≤ 2 * 1048064).
Proof. apply (@format_size_prefix (example_host (GetRaised "")) 1048064). lia. Defined.

(** X12: for a download count from 1000 to below 10^9 the number the
    Download Formatter prints is between 1 and 1000; it is 1000, under
    the smaller suffix, exactly from 999500 on in the K tier and from
    999500000 on in the M tier (999999 prints as "1000K", not "1M"). *)
Theorem format_downloads_prefix (D : Z) :
  1000 ≤ D < 1000000000 →
  ∃ n, 1 ≤ n ≤ 1000 ∧
       format_downloads (VInt D)
       = Ok (Some (pretty n +:+ (if D <? 1000000 then "K" else "M"))) ∧
       (n = 1000 ↔ if D <? 1000000 then 999500 ≤ D else 999500000 ≤ D).
Proof.
  intros HD.
  assert (format_downloads (VInt D) = Some <$> format_downloads_int D) as ->.
  { unfold format_downloads. cbn [truthy]. destruct (Z.eqb_spec D 0); [lia | done]. }
  unfold format_downloads_int.
  destruct (Z.leb_spec 1000000000 D); [lia |].
  assert (∀ unit, 0 < unit → unit ≤ D < 1000 * unit →
            1 ≤ round_half_even D unit ≤ 1000 ∧
            (round_half_even D unit = 1000 ↔ 1999 * unit ≤ 2 * D)) as Hround.
  { intros unit Hunit Hrange. split; [split |].
    - apply round_half_even_lower; lia.
    - apply round_half_even_upper_bound; lia.
    - split.
      + intros Hn. assert (1000 ≤ round_half_even D unit) as Hle by lia.
        apply (round_half_even_reaches D unit 1000) in Hle; [lia | lia | done].
      + intros Hle.
        assert (1000 ≤ round_half_even D unit)
          by (apply (round_half_even_reaches D unit 1000); [lia | done | lia]).
        assert (round_half_even D unit ≤ 1000)
          by (apply round_half_even_upper_bound; lia).
        lia. }
  destruct (Z.leb_spec 1000000 D), (Z.ltb_spec D 1000000); try lia.
  - exists (round_half_even D 1000000).
    destruct (Hround 1000000) as [Hn Htop]; [lia | lia |].
    rewrite (format_truediv D 1000000 10) by (done || lia).
    split; [done |]. split; [done |]. rewrite Htop. lia.
  - destruct (Z.leb_spec 1000 D); [| lia].
    exists (round_half_even D 1000).
    destruct (Hround 1000) as [Hn Htop]; [lia | lia |].
    rewrite (format_truediv D 1000 10) by (done || lia).
    split; [done |]. split; [done |]. rewrite Htop. lia.
Qed.

Lemma format_downloads_prefix_witness :
  ∃ n, 1 ≤ n ≤ 1000 ∧
       format_downloads (VInt 999999) = Ok (Some (pretty n +:+ "K")) ∧
       (n = 1000 ↔ 999500 ≤ 999999).
Proof. apply (format_downloads_prefix 999999). lia. Defined.

(** ** What a returned response says about the payload *)

Lemma new_AppResponse_size_downloads `{Host} kwargs r :
  new_AppResponse kwargs = Ok r →
  validate_field kwargs "size" = Ok (models.size r) ∧
  validate_field kwargs "downloads" = Ok (models.downloads r).
Proof.
  unfold new_AppResponse. intros Hnew.
  repeat (apply bind_Ok_inv in Hnew as (? & ? & Hnew)).
  injection Hnew as <-. by cbn [models.size models.downloads].
Qed.

(** X13: the handler returns a response only for a payload whose result
    list is a non-empty list with an object first; the size and the
    downloads of the response are then what the two formatters return
    on that object's [size] and [downloads], whether or not the rest of
    the object is well formed. *)
Theorem get_aptoide_app_Ok_inv `{Host} (package_name : string) r :
  get_aptoide_app package_name = Ok r →
  ∃ data (d : gmap string value) rest,
    fetch_from_aptoide package_name = Ok data ∧
    at_path ["datalist"; "list"] data = Some (VList (VDict d :: rest)) ∧
    format_size (default VNone (d !! "size")) = Ok (models.size r) ∧
    format_downloads (default VNone (d !! "downloads")) = Ok (models.downloads r).
Proof.
  unfold get_aptoide_app. intros Hget.
  apply bind_Ok_inv in Hget as (data & Hfetch & Hget).
  apply bind_Ok_inv in Hget as (datalist & Hdatalist & Hget).
  apply bind_Ok_inv in Hget as (apps & Happs & Hget).
  destruct (truthy apps) eqn:Htruthy; cbn [negb] in Hget; [| done].
  apply bind_Ok_inv in Hget as (app_data & Happ & Hget).
  apply bind_Ok_inv in Hget as (file_data & Hfile & Hget).
  apply bind_Ok_inv in Hget as (signature & Hsig & Hget).
  apply bind_Ok_inv in Hget as (cert_fields & Hcert & Hget).
  apply bind_Ok_inv in Hget as (name & Hname & Hget).
  apply bind_Ok_inv in Hget as (size & Hsize & Hget).
  apply bind_Ok_inv in Hget as (downloads & Hdownloads & Hget).
  do 6 (apply bind_Ok_inv in Hget as (? & _ & Hget)).
  apply new_AppResponse_size_downloads in Hget as [Hvsize Hvdownloads].
  unfold validate_field in Hvsize, Hvdownloads.
  rewrite kwargs_lookup in Hvsize, Hvdownloads.
  cbn [String.eqb Ascii.eqb Bool.eqb default from_option id] in Hvsize, Hvdownloads.
  rewrite validate_of_option_str in Hvsize, Hvdownloads.
  injection Hvsize as <-. injection Hvdownloads as <-.
  apply bind_Ok_inv in Hsize as (size_arg & Hsize_arg & Hsize).
  apply bind_Ok_inv in Hdownloads as (downloads_arg & Hdownloads_arg & Hdownloads).
  destruct app_data as [| | | | |d]; try done.
  cbn [py_get] in Hsize_arg, Hdownloads_arg.
  injection Hsize_arg as <-. injection Hdownloads_arg as <-.
  destruct data as [| | | | |dd]; try done. cbn [py_get] in Hdatalist.
  injection Hdatalist as <-.
  destruct (dd !! "datalist") as [datalist|] eqn:Hdd; cbn [default from_option id] in Happs.
  - destruct datalist as [| | | | |dl]; try done. cbn [py_get] in Happs.
    injection Happs as <-.
    destruct (dl !! "list") as [apps|] eqn:Hdl;
      cbn [default from_option id] in Htruthy, Happ; [| done].
    destruct apps as [| | |s|l|]; try done.
    + destruct s; done.
    + destruct l as [|first rest]; [done |]. cbn [py_getitem0] in Happ.
      injection Happ as ->.
      exists (VDict dd), d, rest. cbn [at_path]. rewrite Hdd, Hdl. done.
  - cbn [py_get] in Happs. rewrite lookup_empty in Happs.
    injection Happs as <-. done.
Qed.

Lemma get_aptoide_app_Ok_inv_witness :
  ∃ data (d : gmap string value) rest,
    @fetch_from_aptoide (answering_host (search_payload [test_app])) "com.test.app"
    = Ok data ∧
    at_path ["datalist"; "list"] data = Some (VList (VDict d :: rest)) ∧
    @format_size (answering_host (search_payload [test_app]))
      (default VNone (d !! "size")) = Ok (Some "20 MB") ∧
    format_downloads (default VNone (d !! "downloads")) = Ok (Some "2M").
Proof.
  apply (@get_aptoide_app_Ok_inv (answering_host (search_payload [test_app]))
           "com.test.app"
           {| models.name := Some "Test App";
              models.size := Some "20 MB";
              models.downloads := Some "2M";
              models.version := Some "1.0.0";
              models.release_date := Some "2025-01-01";
              models.min_screen := Some "SMALL";
              models.supported_cpu := Some "arm64-v8a";
              models.package_id := Some "com.test.app";
              models.sha1_signature := Some "AA:BB:CC";
              models.developer_cn := Some "Dev";
              models.organization := Some "Org";
              models.local := Some "City";
              models.country := Some "US";
              models.state_city := Some "State" |}).
  vm_compute. reflexivity.
Defined.
